(** * Arrayset catalog of hangar ([src/hangar/arrayset.py]) in Rocq

    A shallow embedding of the [Arraysets] class: the catalog object, the
    LMDB stores it writes (as sorted key/value lists, LMDB's byte order being
    the lexicographic order of [String.compare]) and the Python exceptions it
    raises.  Modules of hangar that are not part of [arrayset.py] (key
    encoders, schema codec, backend option parser, record queries, the column
    accessors) are collaborators, collected in the type class [Collaborators]. *)

From Stdlib Require Import String Ascii List Bool ZArith Lia.
Import ListNotations.
Open Scope string_scope.

(* ------------------------------------------------------------------ *)
(** ** Python exceptions and the state/exception monad *)

Inductive py_exc : Type :=
| PermissionError (msg : string)
| KeyError (msg : string)
| LookupError (msg : string)
| ValueError (msg : string)
| TypeError (msg : string)
| MemoryError (msg : string)
| AttributeError (msg : string).

Inductive result (A : Type) : Type :=
| Ok (a : A)
| Err (e : py_exc).
Arguments Ok {A} a.
Arguments Err {A} e.

Definition is_permission_error (e : py_exc) : bool :=
  match e with PermissionError _ => true | _ => false end.

(** A double-quote character, for messages that contain one. *)
Definition dq : string := String (ascii_of_nat 34) EmptyString.

(** [str(n)] of a natural number. *)
Fixpoint nat_repr_aux (fuel n : nat) (acc : string) : string :=
  let acc' := String (ascii_of_nat (48 + n mod 10)) acc in
  match fuel with
  | O => acc'
  | S f => if Nat.ltb n 10 then acc' else nat_repr_aux f (n / 10) acc'
  end.

Definition nat_repr (n : nat) : string := nat_repr_aux n n EmptyString.

(** Message of calling an attribute that was set to [None]. *)
Definition none_not_callable : py_exc :=
  TypeError "'NoneType' object is not callable".

(* ------------------------------------------------------------------ *)
(** ** LMDB stores *)

(** An LMDB database: its records in key order. *)
Definition store := list (string * string).

Definition key_ltb (a b : string) : bool := String.ltb a b.

(** [k.startswith(p)] on byte keys. *)
Definition startswith (k p : string) : bool := String.prefix p k.

(** LMDB keeps its keys strictly increasing. *)
Fixpoint keys_sorted (s : store) : bool :=
  match s with
  | [] => true
  | (k, _) :: t => forallb (fun kv => key_ltb k (fst kv)) t && keys_sorted t
  end.

Fixpoint db_get (k : string) (s : store) : option string :=
  match s with
  | [] => None
  | (k', v) :: t => if String.eqb k k' then Some v else db_get k t
  end.

(** [txn.put(k, v)] (overwrite=True): replace or insert in key order. *)
Fixpoint db_put (k v : string) (s : store) : store :=
  match s with
  | [] => [(k, v)]
  | (k', v') :: t =>
      if String.eqb k k' then (k, v) :: t
      else if key_ltb k k' then (k, v) :: s
      else (k', v') :: db_put k v t
  end.

(** [txn.put(k, v, overwrite=False)]: an existing key is left alone and the
    call returns [False]; no exception. *)
Definition db_put_nooverwrite (k v : string) (s : store) : bool * store :=
  match db_get k s with
  | Some _ => (false, s)
  | None => (true, db_put k v s)
  end.

(** [txn.delete(k)]. *)
Fixpoint db_delete (k : string) (s : store) : store :=
  match s with
  | [] => []
  | (k', v') :: t => if String.eqb k k' then t else (k', v') :: db_delete k t
  end.

(** A cursor is a zipper: records before it (reversed) and records from its
    position on.  [cursor.set_range(k)] positions on the first key [>= k]
    and returns whether there is one. *)
Fixpoint cursor_set_range (k : string) (s : store) : store * store :=
  match s with
  | [] => ([], [])
  | (k', v') :: t =>
      if key_ltb k' k then
        let '(pre, post) := cursor_set_range k t in ((k', v') :: pre, post)
      else ([], s)
  end.

(** The loop of [delete]:
<<
    while recordsExist:
        k = cursor.key()
        if k.startswith(asetRangeKey):
            recordsExist = cursor.delete()
        else:
            recordsExist = False
>>
    [cursor.delete()] removes the current record and moves to the next; once
    the end is passed the cursor key is [b''] and the loop stops. *)
Fixpoint cursor_delete_run (rk : string) (post : store) : store :=
  match post with
  | [] => []
  | (k, v) :: t => if startswith k rk then cursor_delete_run rk t else post
  end.

Definition delete_range (rk : string) (s : store) : store :=
  let '(pre, post) := cursor_set_range rk s in
  (pre ++ cursor_delete_run rk post)%list.

(* ------------------------------------------------------------------ *)
(** ** Python dicts (insertion ordered, string keys) *)

Definition dict (V : Type) := list (string * V).

Fixpoint dict_get {V} (k : string) (d : dict V) : option V :=
  match d with
  | [] => None
  | (k', v) :: t => if String.eqb k k' then Some v else dict_get k t
  end.

Definition dict_mem {V} (k : string) (d : dict V) : bool :=
  match dict_get k d with Some _ => true | None => false end.

(** [d[k] = v]: an existing key keeps its place, a new key goes last. *)
Fixpoint dict_set {V} (k : string) (v : V) (d : dict V) : dict V :=
  match d with
  | [] => [(k, v)]
  | (k', v') :: t => if String.eqb k k' then (k, v) :: t else (k', v') :: dict_set k v t
  end.

(** [del d[k]]. *)
Fixpoint dict_del {V} (k : string) (d : dict V) : dict V :=
  match d with
  | [] => []
  | (k', v') :: t => if String.eqb k k' then t else (k', v') :: dict_del k t
  end.

(** [repr(list_of_str)] for keys that need no escaping (no quote,
    backslash or control character). *)
Definition py_list_repr (l : list string) : string :=
  "[" ++ String.concat ", " (map (fun s => "'" ++ s ++ "'") l) ++ "]".

(* ------------------------------------------------------------------ *)
(** ** numpy arrays and the arguments of [init_arrayset] *)

Record ndarray := mk_ndarray {
  nd_shape : list Z;
  nd_dtype_num : nat;
  nd_c_contiguous : bool;
  nd_data : list Z
}.

Definition nd_ndim (a : ndarray) : nat := length (nd_shape a).
Definition nd_size (a : ndarray) : Z := fold_right Z.mul 1%Z (nd_shape a).

(** [shape : Union[int, Tuple[int]] = None]; [ShapeOther] is any value that
    is none of [tuple], [list], [int]. *)
Inductive shape_arg :=
| ShapeNone
| ShapeInt (n : Z)
| ShapeTuple (dims : list Z)
| ShapeList (dims : list Z)
| ShapeOther.

(** [prototype : np.ndarray = None]; [ProtoOther] is any non-array value. *)
Inductive proto_arg :=
| ProtoNone
| ProtoArray (a : ndarray)
| ProtoOther.

(** [backend_opts : Optional[Union[str, dict]]]. *)
Inductive backend_opts_arg :=
| BOptsNone
| BOptsCode (code : string)
| BOptsDict (opts : list (string * string)).

(** [NPY_MAX_INTP] and the range of [npy_intp]. *)
Definition NPY_MAX_INTP : Z := (2 ^ 63 - 1)%Z.

Definition npy_intp_in_range (d : Z) : bool :=
  Z.leb (- 2 ^ 63) d && Z.leb d NPY_MAX_INTP.

Definition too_big_msg : string :=
  "array is too big; `arr.size * arr.dtype.itemsize` is larger than the " ++
  "maximum possible size.".

(** The size loop of [PyArray_NewFromDescr_int]:
<<
    nbytes = descr->elsize;
    for (i = 0; i < nd; i++) {
        npy_intp dim = dims[i];
        if (dim == 0) { continue; }
        if (dim < 0) { "negative dimensions are not allowed" }
        if (npy_mul_with_overflow_intp(&nbytes, nbytes, dim)) { "array is too big; ..." }
    }
>> *)
Fixpoint npy_nbytes_loop (nbytes : Z) (dims : list Z) : result Z :=
  match dims with
  | [] => Ok nbytes
  | d :: t =>
      if Z.eqb d 0 then npy_nbytes_loop nbytes t
      else if Z.ltb d 0 then Err (ValueError "negative dimensions are not allowed")
      else if Z.ltb NPY_MAX_INTP (nbytes * d) then Err (ValueError too_big_msg)
      else npy_nbytes_loop (nbytes * d) t
  end.

(** Parsed backend options ([beopts.backend], [beopts.opts]). *)
Record BackendOpts := mk_beopts {
  beopts_backend : string;
  beopts_opts : list (string * string)
}.

(** The schema record of an arrayset (the keyword arguments of
    [arrayset_record_schema_db_val_from_raw_val]). *)
Record schema_spec := mk_schema {
  schema_hash : string;
  schema_is_var : bool;
  schema_max_shape : list Z;
  schema_dtype : nat;
  schema_is_named : bool;
  schema_default_backend : string;
  schema_default_backend_opts : list (string * string);
  schema_contains_subsamples : bool
}.

Inductive column_variant := SampleColumn | SubsampleColumn.

(* ------------------------------------------------------------------ *)
(** ** Collaborators imported by [arrayset.py] *)

Class Collaborators := {
  (** [utils.is_suitable_user_key], [utils.is_ascii] *)
  is_suitable_user_key : string -> bool;
  is_ascii : string -> bool;
  (** [backends.parse_user_backend_opts(backend_opts, prototype,
      named_samples, variable_shape)] *)
  parse_user_backend_opts :
    backend_opts_arg -> ndarray -> bool -> bool -> result BackendOpts;
  (** [hashmachine.schema_hash_digest(shape, size, dtype_num, named_samples,
      variable_shape, backend_code, backend_opts)] *)
  schema_hash_digest :
    list Z -> Z -> nat -> bool -> bool -> string -> list (string * string) -> string;
  (** key and value codecs of [records.parsing] *)
  arrayset_record_schema_db_key_from_raw_key : string -> string;
  arrayset_record_schema_db_val_from_raw_val : schema_spec -> string;
  arrayset_record_schema_raw_val_from_db_val : string -> schema_spec;
  arrayset_record_count_range_key : string -> string;
  hash_schema_db_key_from_raw_key : string -> string;
  (** [parsing.generate_sample_name()], drawing from a seed *)
  generate_sample_name : nat -> string;
  (** [RecordQuery(env).schema_specs()] *)
  schema_specs : store -> list (string * schema_spec);
  (** backend set-up done by the column generators of [columns]; returns
      the samples the accessor starts with *)
  column_setup :
    column_variant -> bool -> store -> string -> schema_spec ->
    result (list (string * ndarray));
  (** schema check done by an accessor's [add] *)
  sample_compatible : schema_spec -> ndarray -> bool;
  (** [np.dtype(dtype).itemsize] *)
  dtype_itemsize : nat -> Z;
  (** whether the zeroed buffer of [np.zeros(shape, dtype)] can be
      allocated (machine dependent) *)
  np_zeros_alloc_ok : list Z -> nat -> bool
}.

(* ------------------------------------------------------------------ *)
(** ** Column accessors *)

(** Modelled from the spec: the [Sample]/[Subsample] accessors of
    [hangar.columns] (not part of [arrayset.py]).  An accessor is bound to
    one arrayset name and schema, is a reader or a writer, keeps its own
    reentrancy counter ([_is_conman]) and maps sample keys to arrays. *)
Record accessor := mk_accessor {
  acc_name : string;
  acc_variant : column_variant;
  acc_writable : bool;
  acc_schema : schema_spec;
  acc_is_conman_counter : Z;
  acc_samples : dict ndarray
}.

Definition acc_is_conman (a : accessor) : bool :=
  negb (Z.eqb (acc_is_conman_counter a) 0).

Definition acc_set_counter (a : accessor) (c : Z) : accessor :=
  mk_accessor (acc_name a) (acc_variant a) (acc_writable a) (acc_schema a) c
    (acc_samples a).

Definition acc_set_samples (a : accessor) (s : dict ndarray) : accessor :=
  mk_accessor (acc_name a) (acc_variant a) (acc_writable a) (acc_schema a)
    (acc_is_conman_counter a) s.

(** Modelled from the spec: entering / leaving an accessor's scoped-access
    context increments / decrements its counter. *)
Definition acc___enter__ (a : accessor) : accessor :=
  acc_set_counter a (acc_is_conman_counter a + 1)%Z.

Definition acc___exit__ (a : accessor) : accessor :=
  acc_set_counter a (acc_is_conman_counter a - 1)%Z.

(** Modelled from the spec: [accessor.get(key)]. *)
Definition acc_get (a : accessor) (key : string) : option ndarray :=
  dict_get key (acc_samples a).

(* ------------------------------------------------------------------ *)
(** ** The [Arraysets] object *)

(** An instance attribute: the class's method, or [None] after [__setup]
    assigned [None] to it. *)
Inductive attr_slot := ClassMethod | NoneAttr.

Record method_slots := mk_slots {
  slot_init_arrayset : attr_slot;
  slot_delete : attr_slot;
  slot_multi_add : attr_slot;
  slot___delitem__ : attr_slot;
  slot___setitem__ : attr_slot;
  slot__from_commit : attr_slot;
  slot__from_staging_area : attr_slot
}.

(** [_stack] is not kept in this record: [Arraysets___exit__] below leaves
    every accessor, which is what the source does when the ExitStack in
    [_stack] is the one of the matching [__enter__] (a [with] block that is
    not nested in another [with] of the same catalog, such as the one of
    [multi_add], which only enters a catalog whose counter is 0).  Nested
    blocks, where the inner [__enter__] replaces [_stack], are modelled with
    [_stack] kept, by [conman_catalog] below. *)
Record Arraysets := mk_Arraysets {
  _mode : string;
  _repo_pth : string;
  _arraysets : dict accessor;
  _is_conman_counter : Z;
  _slots : method_slots
}.

(** [Arraysets.__setup]. *)
Definition Arraysets___setup (mode : string) : method_slots :=
  if String.eqb mode "r" then
    mk_slots NoneAttr NoneAttr NoneAttr NoneAttr NoneAttr NoneAttr NoneAttr
  else
    mk_slots ClassMethod ClassMethod ClassMethod ClassMethod ClassMethod
      NoneAttr NoneAttr.

(** [Arraysets.__init__]. *)
Definition Arraysets___init__ (mode repo_pth : string) (arraysets : dict accessor)
  : Arraysets :=
  mk_Arraysets mode repo_pth arraysets 0%Z (Arraysets___setup mode).

Definition set_arraysets (c : Arraysets) (d : dict accessor) : Arraysets :=
  mk_Arraysets (_mode c) (_repo_pth c) d (_is_conman_counter c) (_slots c).

Definition set_counter (c : Arraysets) (n : Z) : Arraysets :=
  mk_Arraysets (_mode c) (_repo_pth c) (_arraysets c) n (_slots c).

(** The program state: the catalog object, the records store ([dataenv]:
    the staging store or a commit's store), the hash store, the staged-hash
    store, and the state of the sample-name generator. *)
Record world := mk_world {
  w_cat : Arraysets;
  w_dataenv : store;
  w_hashenv : store;
  w_stagehashenv : store;
  w_seed : nat
}.

Definition set_cat (w : world) (c : Arraysets) : world :=
  mk_world c (w_dataenv w) (w_hashenv w) (w_stagehashenv w) (w_seed w).

(** State passing with Python exceptions: effects made before an exception
    stay. *)
Definition M (A : Type) := world -> result A * world.

(** [self.attr(...)] where the instance attribute may be [None]. *)
Definition call_slot {A} (s : attr_slot) (m : M A) : M A :=
  fun w => match s with
           | ClassMethod => m w
           | NoneAttr => (Err none_not_callable, w)
           end.

Definition _is_conman (c : Arraysets) : bool :=
  negb (Z.eqb (_is_conman_counter c) 0).

(** [Arraysets._any_is_conman]. *)
Definition _any_is_conman (c : Arraysets) : bool :=
  existsb (fun b => b)
    (_is_conman c :: map (fun kv => acc_is_conman (snd kv)) (_arraysets c)).

(** [Arraysets.__enter__] and [Arraysets.__exit__]. *)
Definition Arraysets___enter__ (c : Arraysets) : Arraysets :=
  let c1 := set_arraysets c
              (map (fun kv => (fst kv, acc___enter__ (snd kv))) (_arraysets c)) in
  set_counter c1 (_is_conman_counter c1 + 1)%Z.

Definition Arraysets___exit__ (c : Arraysets) : Arraysets :=
  let c1 := set_counter c (_is_conman_counter c - 1)%Z in
  set_arraysets c1
    (map (fun kv => (fst kv, acc___exit__ (snd kv))) (_arraysets c1)).

(** The catalog with [self._stack] kept.  [__init__] sets [_stack] to a
    list ([[]]); [__enter__] replaces it by an ExitStack holding the
    [__exit__] of each accessor it entered (recorded here by their names,
    which name the same accessor objects while a context is open, since
    [init_arrayset] and [delete] are refused then). *)
Inductive stack_attr :=
| StackList
| StackExit (names : list string).

Record conman_catalog := mk_conman_catalog {
  cc_cat : Arraysets;
  cc_stack : stack_attr
}.

(** [Arraysets.__enter__]: [self._stack = stack.pop_all()]. *)
Definition conman___enter__ (s : conman_catalog) : conman_catalog :=
  mk_conman_catalog (Arraysets___enter__ (cc_cat s))
    (StackExit (map fst (_arraysets (cc_cat s)))).

(** [Arraysets.__exit__]: [self._is_conman_counter -= 1], then
    [self._stack.close()], which runs the saved [__exit__]s and leaves the
    ExitStack empty; the list set by [__init__] has no [close]. *)
Definition conman___exit__ (s : conman_catalog) : result unit * conman_catalog :=
  let c1 := set_counter (cc_cat s) (_is_conman_counter (cc_cat s) - 1)%Z in
  match cc_stack s with
  | StackList =>
      (Err (AttributeError "'list' object has no attribute 'close'"),
       mk_conman_catalog c1 StackList)
  | StackExit names =>
      (Ok tt,
       mk_conman_catalog
         (set_arraysets c1
            (map (fun kv => if existsb (String.eqb (fst kv)) names
                            then (fst kv, acc___exit__ (snd kv)) else kv)
               (_arraysets c1)))
         (StackExit []))
  end.

Definition conman_msg : string :=
  "Not allowed while any arraysets class is opened in a context manager".

(** [Arraysets.__setitem__]. *)
Definition Arraysets___setitem__ {V : Type} (key : string) (value : V) : M unit :=
  fun w => (Err (PermissionError
                   "Not allowed! To add a arrayset use `init_arrayset` method."), w).

(** [catalog[key] = value]: Python looks [__setitem__] up on the class. *)
Definition subscript_assign {V : Type} (key : string) (value : V) : M unit :=
  Arraysets___setitem__ key value.

(* ------------------------------------------------------------------ *)
(** ** Operations of [Arraysets] *)

Section Operations.
Context `{Collaborators}.

(** Modelled from the spec: [Sample().generate_writer] and its siblings
    build an accessor of their own variant and mode, bound to the name and
    schema, once the backend set-up succeeds. *)
Definition generate_accessor (variant : column_variant) (writable : bool)
  (env : store) (aset_name : string) (spec : schema_spec) : result accessor :=
  match column_setup variant writable env aset_name spec with
  | Err e => Err e
  | Ok samples => Ok (mk_accessor aset_name variant writable spec 0%Z samples)
  end.

Definition Sample_generate_writer := generate_accessor SampleColumn true.
Definition Subsample_generate_writer := generate_accessor SubsampleColumn true.
Definition Sample_generate_reader := generate_accessor SampleColumn false.
Definition Subsample_generate_reader := generate_accessor SubsampleColumn false.

(** Modelled from the spec: [accessor.add(key, array)] of a writer checks
    the array against the schema and stores it under the key. *)
Definition acc_add (a : accessor) (key : string) (v : ndarray) : result accessor :=
  if negb (acc_writable a) then
    Err (TypeError "reader accessor has no add")
  else if sample_compatible (acc_schema a) v then
    Ok (acc_set_samples a (dict_set key v (acc_samples a)))
  else Err (ValueError "sample does not match the arrayset schema").

(** The loop of [multi_add]:
<<
    for k, v in mapping.items():
        self._arraysets[k].add(data_name, v)
>> *)
Fixpoint multi_add_loop (data_name : string) (items : list (string * ndarray))
  (arraysets : dict accessor) : result unit * dict accessor :=
  match items with
  | [] => (Ok tt, arraysets)
  | (k, v) :: t =>
      match dict_get k arraysets with
      | None => (Err (KeyError k), arraysets)
      | Some a =>
          match acc_add a data_name v with
          | Err e => (Err e, arraysets)
          | Ok a' => multi_add_loop data_name t (dict_set k a' arraysets)
          end
      end
  end.

Definition multi_add_keys_msg (keys : list string) : string :=
  "not all keys " ++ py_list_repr keys ++ " exist as arrayset names".

(** [Arraysets.multi_add]. *)
Definition Arraysets_multi_add (mapping : list (string * ndarray)) : M string :=
  fun w =>
    let entered := negb (_is_conman (w_cat w)) in
    let w1 := if entered then set_cat w (Arraysets___enter__ (w_cat w)) else w in
    let '(r, w2) :=
      if forallb (fun k => dict_mem k (_arraysets (w_cat w1))) (map fst mapping) then
        let data_name := generate_sample_name (w_seed w1) in
        let '(r, d) := multi_add_loop data_name mapping (_arraysets (w_cat w1)) in
        (match r with Ok _ => Ok data_name | Err e => Err e end,
         mk_world (set_arraysets (w_cat w1) d) (w_dataenv w1) (w_hashenv w1)
           (w_stagehashenv w1) (S (w_seed w1)))
      else (Err (KeyError (multi_add_keys_msg (map fst mapping))), w1) in
    (r, if entered then set_cat w2 (Arraysets___exit__ (w_cat w2)) else w2).

(** [np.zeros(shape, dtype=dtype)] (numpy 1.19 to 1.26, 64-bit [npy_intp]).
    [PyArray_IntpConverter] refuses more than 32 dimensions and sizes out
    of the [npy_intp] range; [PyArray_NewFromDescr_int] then runs
    [npy_nbytes_loop] over the sizes; the buffer is allocated last.  The
    [MemoryError] message keeps only its fixed text. *)
Definition np_zeros (shape : shape_arg) (dtype_num : nat) : result ndarray :=
  let dims := match shape with
              | ShapeInt n => [n]
              | ShapeTuple l | ShapeList l => l
              | _ => []
              end in
  if Nat.ltb 32 (length dims) then
    Err (ValueError ("maximum supported dimension for an ndarray is 32, found " ++
                     nat_repr (length dims)))
  else if existsb (fun d => negb (npy_intp_in_range d)) dims then
    Err (ValueError "Maximum allowed dimension exceeded")
  else
    match npy_nbytes_loop (dtype_itemsize dtype_num) dims with
    | Err e => Err e
    | Ok _ =>
        if np_zeros_alloc_ok dims dtype_num then
          Ok (mk_ndarray dims dtype_num true
                (repeat 0%Z (Z.to_nat (fold_right Z.mul 1%Z dims))))
        else Err (MemoryError "Unable to allocate array")
    end.

(** The [prototype] / [shape] + [dtype] branch of [init_arrayset]. *)
Definition init_arrayset_prototype (shape : shape_arg) (dtype : option nat)
  (prototype : proto_arg) : result ndarray :=
  match prototype with
  | ProtoArray p =>
      if negb (nd_c_contiguous p) then
        Err (ValueError ("`prototype` must be " ++ dq ++ "C" ++ dq ++ " contiguous array."))
      else Ok p
  | ProtoOther =>
      Err (ValueError "If not `None`, `prototype` argument be `np.ndarray`-like.")
  | ProtoNone =>
      match shape, dtype with
      | (ShapeInt _ | ShapeTuple _ | ShapeList _), Some dt => np_zeros shape dt
      | _, _ => Err (ValueError "`shape` & `dtype` required if no `prototype` set.")
      end
  end.

Definition init_arrayset_name_msg (name : string) : string :=
  "Arrayset name provided: `" ++ name ++ "` is invalid. Can only contain " ++
  "alpha-numeric or " ++ dq ++ "." ++ dq ++ " " ++ dq ++ "_" ++ dq ++ " " ++
  dq ++ "-" ++ dq ++ " ascii characters (no whitespace). " ++
  "Must be <= 64 characters long".

(** The [try] block of [init_arrayset]: argument checks.  The messages that
    print numpy values (the prototype's repr, the shape) keep only their
    fixed text. *)
Definition init_arrayset_checks (arraysets : dict accessor) (name : string)
  (shape : shape_arg) (dtype : option nat) (prototype : proto_arg)
  (named_samples variable_shape : bool) (backend_opts : backend_opts_arg)
  : result (ndarray * BackendOpts) :=
  if negb (is_suitable_user_key name) || negb (is_ascii name) then
    Err (ValueError (init_arrayset_name_msg name))
  else if dict_mem name arraysets then
    Err (LookupError ("Arrayset already exists with name: " ++ name ++ "."))
  else
    match init_arrayset_prototype shape dtype prototype with
    | Err e => Err e
    | Ok proto =>
        if existsb (Z.eqb 0) (nd_shape proto) || Nat.ltb 31 (nd_ndim proto) then
          Err (ValueError "Invalid shape specification.")
        else
          match parse_user_backend_opts backend_opts proto named_samples
                  variable_shape with
          | Err e => Err e
          | Ok beopts => Ok (proto, beopts)
          end
    end.

(** The schema value [init_arrayset] writes. *)
Definition init_arrayset_schema_val (proto : ndarray) (beopts : BackendOpts)
  (named_samples variable_shape contains_subsamples : bool) : string :=
  let schema_hash :=
    schema_hash_digest (nd_shape proto) (nd_size proto) (nd_dtype_num proto)
      named_samples variable_shape (beopts_backend beopts) (beopts_opts beopts) in
  arrayset_record_schema_db_val_from_raw_val
    (mk_schema schema_hash variable_shape (nd_shape proto) (nd_dtype_num proto)
       named_samples (beopts_backend beopts) (beopts_opts beopts)
       contains_subsamples).

Definition init_arrayset_hash_key (proto : ndarray) (beopts : BackendOpts)
  (named_samples variable_shape : bool) : string :=
  hash_schema_db_key_from_raw_key
    (schema_hash_digest (nd_shape proto) (nd_size proto) (nd_dtype_num proto)
       named_samples variable_shape (beopts_backend beopts) (beopts_opts beopts)).

(** [Arraysets.init_arrayset]; returns the new accessor. *)
Definition Arraysets_init_arrayset (name : string) (shape : shape_arg)
  (dtype : option nat) (prototype : proto_arg)
  (named_samples variable_shape contains_subsamples : bool)
  (backend_opts : backend_opts_arg) : M accessor :=
  fun w =>
    if _any_is_conman (w_cat w) then (Err (PermissionError conman_msg), w) else
    match init_arrayset_checks (_arraysets (w_cat w)) name shape dtype prototype
            named_samples variable_shape backend_opts with
    | Err e => (Err e, w)
    | Ok (proto, beopts) =>
        let asetSchemaKey := arrayset_record_schema_db_key_from_raw_key name in
        let asetSchemaVal := init_arrayset_schema_val proto beopts named_samples
                               variable_shape contains_subsamples in
        let hashSchemaKey := init_arrayset_hash_key proto beopts named_samples
                               variable_shape in
        (* with txnctx.write() as ctx: *)
        let data' := db_put asetSchemaKey asetSchemaVal (w_dataenv w) in
        let hash' := snd (db_put_nooverwrite hashSchemaKey asetSchemaVal (w_hashenv w)) in
        let w' := mk_world (w_cat w) data' hash' (w_stagehashenv w) (w_seed w) in
        let schemaSpec := arrayset_record_schema_raw_val_from_db_val asetSchemaVal in
        let gen := if contains_subsamples then Subsample_generate_writer
                   else Sample_generate_writer in
        match gen data' name schemaSpec with
        | Err e => (Err e, w')
        | Ok acc =>
            (Ok acc, set_cat w' (set_arraysets (w_cat w)
                                   (dict_set name acc (_arraysets (w_cat w)))))
        end
    end.

(** [Arraysets.delete]. *)
Definition Arraysets_delete (aset_name : string) : M string :=
  fun w =>
    if _any_is_conman (w_cat w) then (Err (PermissionError conman_msg), w) else
    if negb (dict_mem aset_name (_arraysets (w_cat w))) then
      (Err (KeyError ("Cannot remove: " ++ aset_name ++ ". Key does not exist.")), w)
    else
      let arraysets' := dict_del aset_name (_arraysets (w_cat w)) in
      let data1 := delete_range (arrayset_record_count_range_key aset_name)
                     (w_dataenv w) in
      let data2 := db_delete (arrayset_record_schema_db_key_from_raw_key aset_name)
                     data1 in
      (Ok aset_name,
       mk_world (set_arraysets (w_cat w) arraysets') data2 (w_hashenv w)
         (w_stagehashenv w) (w_seed w)).

(** Calls through the instance attributes ([catalog.delete(name)], ...). *)
Definition call_init_arrayset name shape dtype prototype named_samples
  variable_shape contains_subsamples backend_opts : M accessor :=
  fun w => call_slot (slot_init_arrayset (_slots (w_cat w)))
             (Arraysets_init_arrayset name shape dtype prototype named_samples
                variable_shape contains_subsamples backend_opts) w.

Definition call_delete (aset_name : string) : M string :=
  fun w => call_slot (slot_delete (_slots (w_cat w))) (Arraysets_delete aset_name) w.

Definition call_multi_add (mapping : list (string * ndarray)) : M string :=
  fun w => call_slot (slot_multi_add (_slots (w_cat w)))
             (Arraysets_multi_add mapping) w.

(** [Arraysets.__delitem__]: [return self.delete(key)] goes through the
    instance attribute. *)
Definition Arraysets___delitem__ (key : string) : M string :=
  fun w =>
    if _any_is_conman (w_cat w) then (Err (PermissionError conman_msg), w)
    else call_delete key w.

(** [del catalog[key]]: Python looks [__delitem__] up on the class. *)
Definition subscript_delete (key : string) : M string := Arraysets___delitem__ key.

(** The loops of [_from_staging_area] and [_from_commit]. *)
Fixpoint from_staging_loop (env : store) (specs : list (string * schema_spec))
  (arraysets : dict accessor) : result (dict accessor) :=
  match specs with
  | [] => Ok arraysets
  | (asetName, schemaSpec) :: t =>
      let setup := if schema_contains_subsamples schemaSpec
                   then Subsample_generate_writer env asetName schemaSpec
                   else Sample_generate_writer env asetName schemaSpec in
      match setup with
      | Err e => Err e
      | Ok m => from_staging_loop env t (dict_set asetName m arraysets)
      end
  end.

Fixpoint from_commit_loop (env : store) (specs : list (string * schema_spec))
  (arraysets : dict accessor) : result (dict accessor) :=
  match specs with
  | [] => Ok arraysets
  | (asetName, schemaSpec) :: t =>
      let setup := if schema_contains_subsamples schemaSpec
                   then Subsample_generate_reader env asetName schemaSpec
                   else Sample_generate_reader env asetName schemaSpec in
      match setup with
      | Err e => Err e
      | Ok m => from_commit_loop env t (dict_set asetName m arraysets)
      end
  end.

(** [Arraysets._from_staging_area]. *)
Definition Arraysets__from_staging_area (repo_pth : string)
  (hashenv stageenv stagehashenv : store) : result Arraysets :=
  match from_staging_loop stageenv (schema_specs stageenv) [] with
  | Err e => Err e
  | Ok arraysets => Ok (Arraysets___init__ "a" repo_pth arraysets)
  end.

(** [Arraysets._from_commit]. *)
Definition Arraysets__from_commit (repo_pth : string) (hashenv cmtrefenv : store)
  : result Arraysets :=
  match from_commit_loop cmtrefenv (schema_specs cmtrefenv) [] with
  | Err e => Err e
  | Ok arraysets => Ok (Arraysets___init__ "r" repo_pth arraysets)
  end.

End Operations.

(* ------------------------------------------------------------------ *)
(** ** Methods available to read and write checkouts *)

(** [cm_weakref_obj_proxy(obj)] wraps an accessor in a proxy that forwards
    every attribute to it; the proxy is not kept apart from the accessor. *)

(** [Arraysets.__contains__]: [True if key in self._arraysets else False]. *)
Definition Arraysets___contains__ (c : Arraysets) (key : string) : bool :=
  if dict_mem key (_arraysets c) then true else false.

(** [Arraysets.__len__]. *)
Definition Arraysets___len__ (c : Arraysets) : nat := length (_arraysets c).

(** [Arraysets.keys]: [list(self._arraysets.keys())]. *)
Definition Arraysets_keys (c : Arraysets) : list string := map fst (_arraysets c).

(** [Arraysets.__iter__]: [iter(self._arraysets)], the keys in order. *)
Definition Arraysets___iter__ (c : Arraysets) : list string := map fst (_arraysets c).

(** [Arraysets._ipython_key_completions_]: [return self.keys()]. *)
Definition Arraysets__ipython_key_completions_ (c : Arraysets) : list string :=
  Arraysets_keys c.

(** [Arraysets.iswriteable]. *)
Definition Arraysets_iswriteable (c : Arraysets) : bool :=
  if String.eqb (_mode c) "r" then false else true.

(** [Arraysets.get]: a missing name turns the [KeyError] of the dict lookup
    into [KeyError('No arrayset exists with name: ...')]. *)
Definition Arraysets_get (c : Arraysets) (name : string) : result accessor :=
  match dict_get name (_arraysets c) with
  | Some a => Ok a
  | None => Err (KeyError ("No arrayset exists with name: " ++ name))
  end.

(** [Arraysets.__getitem__]: [return self.get(key)]. *)
Definition Arraysets___getitem__ (c : Arraysets) (key : string) : result accessor :=
  Arraysets_get c key.

(** The generator bodies of [items] and [values]:
<<
    for asetN in list(self._arraysets.keys()):
        asetObj = self._arraysets[asetN]
>>
    run to the end; a lookup that failed would raise [KeyError]. *)
Fixpoint items_loop (d : dict accessor) (names : list string)
  : result (list (string * accessor)) :=
  match names with
  | [] => Ok []
  | n :: t =>
      match dict_get n d with
      | None => Err (KeyError n)
      | Some a =>
          match items_loop d t with
          | Err e => Err e
          | Ok l => Ok ((n, a) :: l)
          end
      end
  end.

(** [list(catalog.items())]. *)
Definition Arraysets_items (c : Arraysets) : result (list (string * accessor)) :=
  items_loop (_arraysets c) (Arraysets_keys c).

(** [list(catalog.values())]. *)
Definition Arraysets_values (c : Arraysets) : result (list accessor) :=
  match items_loop (_arraysets c) (Arraysets_keys c) with
  | Err e => Err e
  | Ok l => Ok (map snd l)
  end.

(* ------------------------------------------------------------------ *)
(** ** A concrete instance of the collaborators *)

Module Demo.

Definition name_char (c : ascii) : bool :=
  let n := nat_of_ascii c in
  (Nat.leb 48 n && Nat.leb n 57) || (Nat.leb 65 n && Nat.leb n 90) ||
  (Nat.leb 97 n && Nat.leb n 122) || Nat.eqb n 46 || Nat.eqb n 95 || Nat.eqb n 45.

Fixpoint all_chars (p : ascii -> bool) (s : string) : bool :=
  match s with
  | EmptyString => true
  | String c t => p c && all_chars p t
  end.

(** Modelled from the spec: [is_suitable_user_key] on a name: non-empty,
    at most 64 characters of [[A-Za-z0-9._-]]. *)
Definition suitable_key (s : string) : bool :=
  negb (Nat.eqb (String.length s) 0) && Nat.leb (String.length s) 64 &&
  all_chars name_char s.

Definition ascii_only (s : string) : bool :=
  all_chars (fun c => Nat.ltb (nat_of_ascii c) 128) s.

Definition digit (n : nat) : string := String (ascii_of_nat (48 + n)) EmptyString.

Definition parse_opts (o : backend_opts_arg) (_ : ndarray) (_ _ : bool)
  : result BackendOpts :=
  match o with
  | BOptsNone => Ok (mk_beopts "00" [])
  | BOptsCode c =>
      if existsb (String.eqb c) ["00"; "01"; "10"] then Ok (mk_beopts c [])
      else Err (ValueError "backend code is not valid")
  | BOptsDict d => Ok (mk_beopts "00" d)
  end.

(** A digest over the schema fields (shape entries as characters). *)
Definition digest (shape : list Z) (size : Z) (dt : nat) (named var : bool)
  (be : string) (_ : list (string * string)) : string :=
  String.concat "." (map (fun d => digit (Z.to_nat d)) shape) ++ "|" ++ digit dt ++
  (if named then "n" else "u") ++ (if var then "v" else "f") ++ be.

(** The stored schema value is its digest; decoding gives the defaults of a
    fixed-shape named-sample schema under that digest. *)
Definition encode_schema (s : schema_spec) : string := schema_hash s.
Definition decode_schema (v : string) : schema_spec :=
  mk_schema v false [] 11 true "00" [] false.

Fixpoint schema_records (s : store) : list (string * schema_spec) :=
  match s with
  | [] => []
  | (String "s" (String ":" n), v) :: t => (n, decode_schema v) :: schema_records t
  | _ :: t => schema_records t
  end.

(** Element sizes of numpy's type numbers ([bool] ... [clongdouble]). *)
Definition itemsize (dt : nat) : Z :=
  nth dt [1; 1; 1; 2; 2; 4; 4; 8; 8; 8; 8; 4; 8; 16; 8; 16; 32]%Z 8%Z.

#[export] Instance demo_collaborators : Collaborators := {
  is_suitable_user_key := suitable_key;
  is_ascii := ascii_only;
  parse_user_backend_opts := parse_opts;
  schema_hash_digest := digest;
  arrayset_record_schema_db_key_from_raw_key := fun n => "s:" ++ n;
  arrayset_record_schema_db_val_from_raw_val := encode_schema;
  arrayset_record_schema_raw_val_from_db_val := decode_schema;
  arrayset_record_count_range_key := fun n => "a:" ++ n ++ ":";
  hash_schema_db_key_from_raw_key := fun h => "s:" ++ h;
  generate_sample_name := fun seed => "sample" ++ digit seed;
  schema_specs := schema_records;
  column_setup := fun _ _ _ n _ =>
    if String.eqb n "broken" then Err (ValueError "backend unavailable") else Ok [];
  sample_compatible := fun s a => Nat.eqb (schema_dtype s) (nd_dtype_num a);
  dtype_itemsize := itemsize;
  np_zeros_alloc_ok := fun dims dt =>
    (itemsize dt * fold_right Z.mul 1 dims <=? 2 ^ 34)%Z
}.

Definition mk_beopts_default : BackendOpts := mk_beopts "00" [].

Definition arr (dt : nat) (shape : list Z) : ndarray :=
  mk_ndarray shape dt true (repeat 0%Z (Z.to_nat (fold_right Z.mul 1%Z shape))).

Definition acc (n : string) : accessor :=
  mk_accessor n SampleColumn true (decode_schema "h") 0 [].

(** A write-enabled checkout with arraysets [x] and [x2]. *)
Definition write_world : world :=
  mk_world (Arraysets___init__ "a" "/repo" [("x", acc "x"); ("x2", acc "x2")])
    [("a:x2:k1", "r3"); ("a:x:k1", "r1"); ("a:x:k2", "r2"); ("s:x", "h");
     ("s:x2", "h")]
    [("s:h", "h")] [] 0.

(** A read-only checkout with arrayset [x]. *)
Definition read_world : world :=
  mk_world (Arraysets___init__ "r" "/repo" [("x", acc "x")])
    [("a:x:k1", "r1"); ("s:x", "h")] [("s:h", "h")] [] 0.

(** [write_world] inside [with catalog:]: the catalog and its accessors
    have their counters at one. *)
Definition entered_world : world :=
  set_cat write_world (Arraysets___enter__ (w_cat write_world)).

(** [catalog.init_arrayset('y', prototype=np.zeros((2,), np.float32))] on
    [write_world], and the accessor and state it leaves. *)
Definition init_y : result accessor * world :=
  call_init_arrayset "y" ShapeNone None (ProtoArray (arr 11 [2%Z])) true false
    false BOptsNone write_world.

Definition acc_y : accessor :=
  match fst init_y with Ok a => a | Err _ => acc "y" end.

Definition world_y : world := snd init_y.

(** A commit's records: one arrayset [x]. *)
Definition commit_env : store := [("a:x:k1", "r1"); ("s:x", "h")].

End Demo.

(* ------------------------------------------------------------------ *)
(** ** Checkout modes and dict well-formedness *)

(** A catalog built by [Arraysets.__init__] in write ('a') / read ('r')
    mode; the mode and the attributes set by [__setup] never change. *)
Definition write_enabled (c : Arraysets) : Prop :=
  _mode c = "a" /\ _slots c = Arraysets___setup "a".

Definition read_only (c : Arraysets) : Prop :=
  _mode c = "r" /\ _slots c = Arraysets___setup "r".

(** A Python dict has each key once. *)
Fixpoint dict_keys_unique {V} (d : dict V) : bool :=
  match d with
  | [] => true
  | (k, _) :: t => negb (dict_mem k t) && dict_keys_unique t
  end.

(** The accessor variant a schema selects ([schema_contains_subsamples]). *)
Definition column_variant_of (s : schema_spec) : column_variant :=
  if schema_contains_subsamples s then SubsampleColumn else SampleColumn.

(** A catalog entry built for a queried [(name, schema)] pair, in the given
    mode. *)
Definition accessor_for (writable : bool) (ns : string * schema_spec)
  (na : string * accessor) : Prop :=
  fst na = fst ns /\ acc_name (snd na) = fst ns /\
  acc_writable (snd na) = writable /\
  acc_variant (snd na) = column_variant_of (snd ns) /\
  acc_schema (snd na) = snd ns.

(* ------------------------------------------------------------------ *)
(** * Properties *)

(** ** LMDB key order and prefix scans *)

Lemma ascii_compare_refl (a : ascii) : Ascii.compare a a = Eq.
Proof. unfold Ascii.compare. apply N.compare_refl. Qed.

Lemma prefix_cons (c : ascii) (p k : string) :
  String.prefix (String c p) (String c k) = String.prefix p k.
Proof. simpl. destruct (ascii_dec c c) as [_|n]; [reflexivity|now contradiction n]. Qed.

Lemma prefix_cons_inv (c : ascii) (p k : string) :
  String.prefix (String c p) k = true ->
  exists k', k = String c k' /\ String.prefix p k' = true.
Proof.
  destruct k as [|b k']; simpl; [discriminate|].
  destruct (ascii_dec c b) as [->|]; [eauto|discriminate].
Qed.

(** A key starting with [p] is not below [p]. *)
Lemma prefix_not_lt (p k : string) :
  String.prefix p k = true -> key_ltb k p = false.
Proof.
  unfold key_ltb, String.ltb.
  revert k; induction p as [|c p IH]; intros k Hp.
  - destruct k; reflexivity.
  - apply prefix_cons_inv in Hp as [k' [-> Hk']].
    simpl. rewrite ascii_compare_refl. now apply IH.
Qed.

(** Keys above a key starting with [p] are not below [p]. *)
Lemma prefix_lt_not_lt (p a b : string) :
  String.prefix p a = true -> key_ltb a b = true -> key_ltb b p = false.
Proof.
  unfold key_ltb, String.ltb.
  revert a b; induction p as [|c p IH]; intros a b Hp Hab.
  - destruct b; reflexivity.
  - apply prefix_cons_inv in Hp as [a' [-> Ha']].
    destruct b as [|x b']; simpl in *; [discriminate|].
    destruct (Ascii.compare c x) eqn:Ecx.
    + apply Ascii.compare_eq_iff in Ecx; subst x.
      rewrite ascii_compare_refl. now apply (IH a').
    + rewrite Ascii.compare_antisym, Ecx. reflexivity.
    + discriminate.
Qed.

(** Between [p] and a key starting with [p], every key starts with [p]. *)
Lemma prefix_between (p a b : string) :
  key_ltb a p = false -> key_ltb a b = true -> String.prefix p b = true ->
  String.prefix p a = true.
Proof.
  unfold key_ltb, String.ltb.
  revert a b; induction p as [|c p IH]; intros a b Hap Hab Hpb.
  - destruct a; reflexivity.
  - apply prefix_cons_inv in Hpb as [b' [-> Hb']].
    destruct a as [|x a']; simpl in Hap, Hab; [discriminate|].
    destruct (Ascii.compare x c) eqn:Exc; try discriminate.
    apply Ascii.compare_eq_iff in Exc; subst x.
    rewrite prefix_cons. eapply IH; eauto.
Qed.

Lemma key_ltb_irrefl (k : string) : key_ltb k k = false.
Proof.
  unfold key_ltb, String.ltb.
  induction k as [|c k IH]; simpl; [reflexivity|].
  now rewrite ascii_compare_refl.
Qed.

(** Two prefixes of one key are comparable. *)
Lemma prefix_common (p q k : string) :
  String.prefix p k = true -> String.prefix q k = true ->
  String.prefix p q = true \/ String.prefix q p = true.
Proof.
  revert q k; induction p as [|c p IH]; intros q k Hp Hq.
  - left; destruct q; reflexivity.
  - destruct q as [|d q]; [right; reflexivity|].
    apply prefix_cons_inv in Hp as [k' [-> Hk']].
    apply prefix_cons_inv in Hq as [k'' [Heq Hk'']].
    injection Heq as Ecd Ek; subst.
    rewrite !prefix_cons. eapply IH; eauto.
Qed.

Definition not_in_range (rk : string) (kv : string * string) : bool :=
  negb (startswith (fst kv) rk).

Lemma filter_all_true {A} (f : A -> bool) (l : list A) :
  forallb f l = true -> filter f l = l.
Proof.
  induction l as [|x l IH]; simpl; [reflexivity|].
  intros [-> Hl]%andb_true_iff. now rewrite IH.
Qed.

Lemma delete_range_cons (rk k v : string) (t : store) :
  delete_range rk ((k, v) :: t) =
  if key_ltb k rk then (k, v) :: delete_range rk t
  else cursor_delete_run rk ((k, v) :: t).
Proof.
  unfold delete_range; simpl.
  destruct (key_ltb k rk); [|reflexivity].
  destruct (cursor_set_range rk t); reflexivity.
Qed.

(** Once positioned on a key not below [rk], the loop deletes exactly the
    keys starting with [rk]. *)
Lemma cursor_delete_run_filter (rk : string) (s : store) :
  keys_sorted s = true ->
  match s with [] => True | (k, _) :: _ => key_ltb k rk = false end ->
  cursor_delete_run rk s = filter (not_in_range rk) s.
Proof.
  induction s as [|[k v] t IH]; intros Hs Hhd; [reflexivity|].
  simpl in Hs; apply andb_true_iff in Hs as [Hgt Ht].
  unfold not_in_range at 1; simpl.
  destruct (startswith k rk) eqn:Hk; simpl.
  - apply IH; [exact Ht|].
    destruct t as [|[k2 v2] t']; [exact I|].
    simpl in Hgt; apply andb_true_iff in Hgt as [Hk2 _].
    exact (prefix_lt_not_lt rk k k2 Hk Hk2).
  - f_equal. symmetry. apply filter_all_true.
    apply forallb_forall. intros [k2 v2] Hin.
    unfold not_in_range; simpl.
    destruct (startswith k2 rk) eqn:Hk2; [|reflexivity].
    rewrite forallb_forall in Hgt. specialize (Hgt _ Hin); simpl in Hgt.
    unfold startswith in Hk, Hk2.
    rewrite (prefix_between rk k k2 Hhd Hgt Hk2) in Hk. discriminate.
Qed.

(** The range deletion of [delete] on a sorted store. *)
Lemma delete_range_filter (rk : string) (s : store) :
  keys_sorted s = true -> delete_range rk s = filter (not_in_range rk) s.
Proof.
  induction s as [|[k v] t IH]; intros Hs; [reflexivity|].
  rewrite delete_range_cons.
  destruct (key_ltb k rk) eqn:Hlt.
  - simpl in Hs; apply andb_true_iff in Hs as [_ Ht].
    simpl. unfold not_in_range at 1; simpl.
    destruct (startswith k rk) eqn:Hk.
    + unfold startswith in Hk. rewrite (prefix_not_lt rk k Hk) in Hlt. discriminate.
    + simpl. now rewrite IH.
  - apply cursor_delete_run_filter; assumption.
Qed.

Lemma keys_sorted_filter (f : string * string -> bool) (s : store) :
  keys_sorted s = true -> keys_sorted (filter f s) = true.
Proof.
  induction s as [|[k v] t IH]; simpl; [reflexivity|].
  intros [Hgt Ht]%andb_true_iff.
  destruct (f (k, v)); simpl; [|now apply IH].
  apply andb_true_iff; split; [|now apply IH].
  apply forallb_forall. intros kv Hin.
  apply filter_In in Hin as [Hin _].
  rewrite forallb_forall in Hgt. now apply Hgt.
Qed.

(** [txn.delete(k)] on a sorted store drops the one record with key [k]. *)
Lemma db_delete_filter (k : string) (s : store) :
  keys_sorted s = true ->
  db_delete k s = filter (fun kv => negb (String.eqb (fst kv) k)) s.
Proof.
  induction s as [|[k' v'] t IH]; intros Hs; [reflexivity|].
  simpl in Hs; apply andb_true_iff in Hs as [Hgt Ht].
  simpl. rewrite (String.eqb_sym k' k).
  destruct (String.eqb k k') eqn:E; simpl.
  - apply String.eqb_eq in E; subst k'.
    symmetry. apply filter_all_true, forallb_forall.
    intros [k2 v2] Hin. rewrite forallb_forall in Hgt.
    specialize (Hgt _ Hin); simpl in Hgt |- *.
    destruct (String.eqb k2 k) eqn:E2; [|reflexivity].
    apply String.eqb_eq in E2; subst k2. now rewrite key_ltb_irrefl in Hgt.
  - now rewrite IH.
Qed.

(** ** Dicts *)

Lemma dict_get_none_iff {V} (k : string) (d : dict V) :
  dict_get k d = None <-> ~ In k (map fst d).
Proof.
  induction d as [|[k' v'] t IH]; simpl; [tauto|].
  destruct (String.eqb k k') eqn:E.
  - apply String.eqb_eq in E; subst. split; [discriminate|tauto].
  - apply String.eqb_neq in E. rewrite IH. split; [|tauto].
    intros Hn [->|Hin]; [now apply E|tauto].
Qed.

Lemma dict_mem_false_iff {V} (k : string) (d : dict V) :
  dict_mem k d = false <-> ~ In k (map fst d).
Proof.
  unfold dict_mem. rewrite <- dict_get_none_iff.
  destruct (dict_get k d); split; congruence.
Qed.

Lemma dict_get_del_self {V} (k : string) (d : dict V) :
  dict_keys_unique d = true -> dict_get k (dict_del k d) = None.
Proof.
  induction d as [|[k' v'] t IH]; simpl; [reflexivity|].
  intros [Hn Hu]%andb_true_iff.
  destruct (String.eqb k k') eqn:E.
  - apply String.eqb_eq in E; subst k'.
    apply negb_true_iff in Hn. unfold dict_mem in Hn.
    destruct (dict_get k t); [discriminate|reflexivity].
  - simpl. rewrite E. now apply IH.
Qed.

Lemma dict_get_del_other {V} (k y : string) (d : dict V) :
  y <> k -> dict_get y (dict_del k d) = dict_get y d.
Proof.
  intros Hne. induction d as [|[k' v'] t IH]; simpl; [reflexivity|].
  destruct (String.eqb k k') eqn:E; simpl.
  - apply String.eqb_eq in E; subst k'.
    apply String.eqb_neq in Hne. now rewrite Hne.
  - now rewrite IH.
Qed.

Lemma dict_get_set {V} (k y : string) (v : V) (d : dict V) :
  dict_get y (dict_set k v d) = if String.eqb y k then Some v else dict_get y d.
Proof.
  induction d as [|[k' v'] t IH]; simpl.
  - reflexivity.
  - destruct (String.eqb k k') eqn:E; simpl.
    + apply String.eqb_eq in E; subst k'. now destruct (String.eqb y k).
    + rewrite IH. destruct (String.eqb y k) eqn:E1, (String.eqb y k') eqn:E2;
        try reflexivity.
      apply String.eqb_eq in E1, E2; subst. now rewrite String.eqb_refl in E.
Qed.

Lemma dict_get_map {V W} (f : V -> W) (y : string) (d : dict V) :
  dict_get y (map (fun kv => (fst kv, f (snd kv))) d) = option_map f (dict_get y d).
Proof.
  induction d as [|[k' v'] t IH]; simpl; [reflexivity|].
  destruct (String.eqb y k'); [reflexivity|exact IH].
Qed.

(** ** The reentrancy check *)

Lemma any_is_conman_true (c : Arraysets) :
  (_is_conman_counter c <> 0%Z \/
   exists n a, In (n, a) (_arraysets c) /\ acc_is_conman_counter a <> 0%Z) ->
  _any_is_conman c = true.
Proof.
  unfold _any_is_conman, _is_conman. simpl.
  intros [Hc|[n [a [Hin Ha]]]].
  - apply Z.eqb_neq in Hc. now rewrite Hc.
  - apply orb_true_iff; right. apply existsb_exists.
    exists (acc_is_conman a). split.
    + apply in_map_iff. exists (n, a). split; [reflexivity|exact Hin].
    + unfold acc_is_conman. apply Z.eqb_neq in Ha. now rewrite Ha.
Qed.

(** ** Claims *)

Section Claims.
Context `{Collaborators}.

(** C1 (amended).  In a read-only catalog [__setup] has set [init_arrayset],
    [delete] and [multi_add] to [None]: calling any of them raises the
    [TypeError] of calling [None], whatever the arguments, and changes
    nothing.  [del catalog[name]] runs the class's [__delitem__]: a
    [PermissionError] when a scoped-access context is open, otherwise the
    same [TypeError] from [self.delete]; nothing changes either. *)
Theorem read_only_structural_ops_fail (w : world) :
  read_only (w_cat w) ->
  (forall name shape dtype prototype named_samples variable_shape
          contains_subsamples backend_opts,
     call_init_arrayset name shape dtype prototype named_samples variable_shape
       contains_subsamples backend_opts w = (Err none_not_callable, w)) /\
  (forall aset_name, call_delete aset_name w = (Err none_not_callable, w)) /\
  (forall mapping, call_multi_add mapping w = (Err none_not_callable, w)) /\
  (forall key, subscript_delete key w =
     (Err (if _any_is_conman (w_cat w) then PermissionError conman_msg
           else none_not_callable), w)).
Proof.
  intros [_ Hs].
  unfold call_init_arrayset, call_delete, call_multi_add, subscript_delete,
    Arraysets___delitem__, call_delete, call_slot.
  rewrite Hs. simpl.
  repeat split; intros; try reflexivity.
  destruct (_any_is_conman (w_cat w)); reflexivity.
Qed.

(** C7.  In a write-enabled catalog where the catalog's counter or the
    counter of one of its accessors is nonzero, [init_arrayset], [delete]
    and [del catalog[name]] raise the [PermissionError] and leave the whole
    state (catalog and stores) as it was. *)
Theorem structural_ops_refused_while_conman (w : world) :
  write_enabled (w_cat w) ->
  (_is_conman_counter (w_cat w) <> 0%Z \/
   exists n a, In (n, a) (_arraysets (w_cat w)) /\ acc_is_conman_counter a <> 0%Z) ->
  (forall name shape dtype prototype named_samples variable_shape
          contains_subsamples backend_opts,
     call_init_arrayset name shape dtype prototype named_samples variable_shape
       contains_subsamples backend_opts w = (Err (PermissionError conman_msg), w)) /\
  (forall aset_name, call_delete aset_name w = (Err (PermissionError conman_msg), w)) /\
  (forall key, subscript_delete key w = (Err (PermissionError conman_msg), w)).
Proof.
  intros [_ Hs] Hc.
  pose proof (any_is_conman_true _ Hc) as Hany.
  unfold call_init_arrayset, call_delete, subscript_delete, Arraysets___delitem__,
    call_slot, Arraysets_init_arrayset, Arraysets_delete.
  rewrite Hs. simpl. rewrite Hany.
  repeat split; reflexivity.
Qed.

(** C8.  [catalog[name] = value] raises [PermissionError] in every state,
    read-only or write-enabled, for every name and value, and changes
    nothing. *)
Theorem subscript_assign_always_refused :
  forall (V : Type) (key : string) (value : V) (w : world),
    subscript_assign key value w =
    (Err (PermissionError
            "Not allowed! To add a arrayset use `init_arrayset` method."), w).
Proof. intros. reflexivity. Qed.

Lemma filter_filter_andb {A} (f g : A -> bool) (l : list A) :
  filter g (filter f l) = filter (fun x => f x && g x) l.
Proof.
  induction l as [|x l IH]; simpl; [reflexivity|].
  destruct (f x); simpl; [destruct (g x); simpl|]; now rewrite IH.
Qed.

(** C4.  In a write-enabled catalog with no open context, [delete x] on an
    existing arrayset returns [x]; [x] is gone from the name-to-accessor
    dict (containment and iteration), every other entry stays; the records
    store loses exactly the records whose key starts with [x]'s range key
    and [x]'s schema record; the other stores are untouched; and the
    records of an arrayset [y] whose range key is not nested with [x]'s
    (such as [x2] next to [x]) all remain. *)
Theorem delete_removes_range_and_schema (w : world) (x : string) :
  write_enabled (w_cat w) ->
  _any_is_conman (w_cat w) = false ->
  dict_keys_unique (_arraysets (w_cat w)) = true ->
  dict_mem x (_arraysets (w_cat w)) = true ->
  keys_sorted (w_dataenv w) = true ->
  exists w',
    call_delete x w = (Ok x, w') /\
    ~ In x (map fst (_arraysets (w_cat w'))) /\
    (forall y, y <> x ->
       dict_get y (_arraysets (w_cat w')) = dict_get y (_arraysets (w_cat w))) /\
    w_dataenv w' =
      filter (fun kv => negb (startswith (fst kv) (arrayset_record_count_range_key x))
                        && negb (String.eqb (fst kv)
                                   (arrayset_record_schema_db_key_from_raw_key x)))
        (w_dataenv w) /\
    w_hashenv w' = w_hashenv w /\
    w_stagehashenv w' = w_stagehashenv w /\
    (forall y k v,
       String.prefix (arrayset_record_count_range_key x)
         (arrayset_record_count_range_key y) = false ->
       String.prefix (arrayset_record_count_range_key y)
         (arrayset_record_count_range_key x) = false ->
       String.prefix (arrayset_record_count_range_key y)
         (arrayset_record_schema_db_key_from_raw_key x) = false ->
       startswith k (arrayset_record_count_range_key y) = true ->
       In (k, v) (w_dataenv w) -> In (k, v) (w_dataenv w')).
Proof.
  intros [_ Hs] Hc Hu Hm Hsorted.
  set (rk := arrayset_record_count_range_key x).
  set (sk := arrayset_record_schema_db_key_from_raw_key x).
  assert (Hdata :
    db_delete sk (delete_range rk (w_dataenv w)) =
    filter (fun kv => negb (startswith (fst kv) rk) && negb (String.eqb (fst kv) sk))
      (w_dataenv w)).
  { rewrite delete_range_filter by exact Hsorted.
    rewrite db_delete_filter by (apply keys_sorted_filter; exact Hsorted).
    apply filter_filter_andb. }
  exists (mk_world (set_arraysets (w_cat w) (dict_del x (_arraysets (w_cat w))))
            (db_delete sk (delete_range rk (w_dataenv w))) (w_hashenv w)
            (w_stagehashenv w) (w_seed w)).
  split.
  { unfold call_delete, call_slot, Arraysets_delete. rewrite Hs. simpl.
    rewrite Hc, Hm. simpl. reflexivity. }
  cbn [w_dataenv w_hashenv w_stagehashenv w_cat _arraysets set_arraysets].
  split; [|split; [|split; [|split; [|split]]]].
  - apply dict_get_none_iff. now apply dict_get_del_self.
  - intros y Hy. now apply dict_get_del_other.
  - exact Hdata.
  - reflexivity.
  - reflexivity.
  - intros y k v H1 H2 H3 Hk Hin. rewrite Hdata.
    apply filter_In. split; [exact Hin|]. simpl.
    destruct (startswith k rk) eqn:Hx.
    + unfold startswith in Hx, Hk.
      destruct (prefix_common _ _ _ Hx Hk) as [Hp|Hp];
        [rewrite Hp in H1|rewrite Hp in H2]; discriminate.
    + destruct (String.eqb k sk) eqn:Hks; [|reflexivity].
      apply String.eqb_eq in Hks; subst k.
      unfold startswith in Hk. rewrite Hk in H3. discriminate.
Qed.

Lemma keys_map {V W} (f : V -> W) (d : dict V) :
  map fst (map (fun kv => (fst kv, f (snd kv))) d) = map fst d.
Proof. induction d as [|kv t IH]; simpl; [reflexivity|]. now rewrite IH. Qed.

Lemma dict_set_keys {V} (k : string) (v : V) (d : dict V) :
  dict_mem k d = true -> map fst (dict_set k v d) = map fst d.
Proof.
  unfold dict_mem. induction d as [|[k' v'] t IH]; simpl; [discriminate|].
  destruct (String.eqb k k') eqn:E; simpl.
  - apply String.eqb_eq in E; now subst.
  - intros Hm. now rewrite IH.
Qed.

(** The loop of [multi_add] when every name is present and every insertion
    is accepted. *)
Lemma multi_add_loop_ok (dn : string) (items : list (string * ndarray))
  (d : dict accessor) :
  dict_keys_unique items = true ->
  (forall n v, In (n, v) items -> exists a, dict_get n d = Some a /\
     acc_writable a = true /\ sample_compatible (acc_schema a) v = true) ->
  exists d', multi_add_loop dn items d = (Ok tt, d') /\
    (forall n v, In (n, v) items ->
       exists a, dict_get n d' = Some a /\ acc_get a dn = Some v) /\
    (forall n, ~ In n (map fst items) -> dict_get n d' = dict_get n d) /\
    map fst d' = map fst d.
Proof.
  revert d; induction items as [|[k v] t IH]; intros d Hu Hall.
  - exists d. split; [reflexivity|]. split; [intros n v []|]. split; reflexivity.
  - simpl in Hu; apply andb_true_iff in Hu as [Hk Hu].
    apply negb_true_iff, dict_mem_false_iff in Hk.
    destruct (Hall k v (or_introl eq_refl)) as [a [Ha [Hw Hcomp]]].
    set (a' := acc_set_samples a (dict_set dn v (acc_samples a))).
    assert (Hadd : acc_add a dn v = Ok a').
    { unfold acc_add. rewrite Hw, Hcomp. reflexivity. }
    destruct (IH (dict_set k a' d) Hu) as [d' [Hloop [Hget [Hother Hkeys]]]].
    { intros n v' Hin. rewrite dict_get_set.
      destruct (String.eqb n k) eqn:E.
      - apply String.eqb_eq in E; subst n.
        exfalso. apply Hk. apply in_map_iff. now exists (k, v').
      - apply Hall. now right. }
    exists d'. split; [|split; [|split]].
    + simpl. rewrite Ha, Hadd. exact Hloop.
    + intros n v' [Heq|Hin].
      * injection Heq as <- <-. exists a'. split.
        -- rewrite (Hother k Hk), dict_get_set, String.eqb_refl. reflexivity.
        -- unfold acc_get, a'. simpl. rewrite dict_get_set, String.eqb_refl.
           reflexivity.
      * now apply Hget.
    + intros n Hn. simpl in Hn.
      rewrite Hother by tauto. rewrite dict_get_set.
      destruct (String.eqb n k) eqn:E; [|reflexivity].
      apply String.eqb_eq in E; subst n. tauto.
    + rewrite Hkeys. apply dict_set_keys. unfold dict_mem. now rewrite Ha.
Qed.

Lemma acc_enter_exit (a : accessor) : acc___exit__ (acc___enter__ a) = a.
Proof.
  destruct a as [n v wr s c sm]. unfold acc___exit__, acc___enter__, acc_set_counter.
  simpl. f_equal. lia.
Qed.

Lemma map_enter_exit (d : dict accessor) :
  map (fun kv => (fst kv, acc___exit__ (snd kv)))
    (map (fun kv => (fst kv, acc___enter__ (snd kv))) d) = d.
Proof.
  induction d as [|[k a] t IH]; simpl; [reflexivity|].
  now rewrite acc_enter_exit, IH.
Qed.

Lemma enter_exit_cat (c : Arraysets) :
  Arraysets___exit__ (Arraysets___enter__ c) = c.
Proof.
  destruct c as [m r d n s].
  unfold Arraysets___exit__, Arraysets___enter__, set_arraysets, set_counter; simpl.
  rewrite map_enter_exit. f_equal. lia.
Qed.

Lemma set_arraysets_same (c : Arraysets) : set_arraysets c (_arraysets c) = c.
Proof. destruct c; reflexivity. Qed.

Lemma slot_multi_add_write (c : Arraysets) :
  write_enabled c -> slot_multi_add (_slots c) = ClassMethod.
Proof. intros [_ Hs]. now rewrite Hs. Qed.

(** C10.  [multi_add({})] in a write-enabled catalog raises nothing, calls
    no [add], leaves the catalog (dict, accessors, counters) and every
    store as they were, only drawing one sample name, which it returns; a
    name not used as a sample key before is used by no accessor after. *)
Theorem multi_add_empty_mapping (w : world) :
  write_enabled (w_cat w) ->
  exists w',
    call_multi_add [] w = (Ok (generate_sample_name (w_seed w)), w') /\
    w_cat w' = w_cat w /\
    w_dataenv w' = w_dataenv w /\ w_hashenv w' = w_hashenv w /\
    w_stagehashenv w' = w_stagehashenv w /\
    w_seed w' = S (w_seed w) /\
    ((forall n a, dict_get n (_arraysets (w_cat w)) = Some a ->
        acc_get a (generate_sample_name (w_seed w)) = None) ->
     forall n a, dict_get n (_arraysets (w_cat w')) = Some a ->
        acc_get a (generate_sample_name (w_seed w)) = None).
Proof.
  intros Hw.
  exists (mk_world (w_cat w) (w_dataenv w) (w_hashenv w) (w_stagehashenv w)
            (S (w_seed w))).
  split; [|simpl; repeat split; auto].
  unfold call_multi_add, call_slot. rewrite (slot_multi_add_write _ Hw).
  unfold Arraysets_multi_add.
  destruct (_is_conman (w_cat w)) eqn:Hc;
    cbn -[Arraysets___enter__ Arraysets___exit__ set_arraysets].
  - now rewrite set_arraysets_same.
  - now rewrite set_arraysets_same, enter_exit_cat.
Qed.

Lemma set_cat_same (w : world) : set_cat w (w_cat w) = w.
Proof. destruct w; reflexivity. Qed.

Lemma dict_mem_map {V W} (f : V -> W) (k : string) (d : dict V) :
  dict_mem k (map (fun kv => (fst kv, f (snd kv))) d) = dict_mem k d.
Proof. unfold dict_mem. rewrite dict_get_map. now destruct (dict_get k d). Qed.

Lemma enter_arraysets (c : Arraysets) :
  _arraysets (Arraysets___enter__ c) =
  map (fun kv => (fst kv, acc___enter__ (snd kv))) (_arraysets c).
Proof. reflexivity. Qed.

Lemma forallb_mem_false (d : dict accessor) (keys : list string) :
  (exists n, In n keys /\ dict_mem n d = false) ->
  forallb (fun k => dict_mem k d) keys = false.
Proof.
  intros [n [Hin Hn]].
  destruct (forallb (fun k => dict_mem k d) keys) eqn:E; [|reflexivity].
  rewrite forallb_forall in E. rewrite (E n Hin) in Hn. discriminate.
Qed.

(** C6 (amended).  When some key of the mapping is not an arrayset name,
    [multi_add] on a write-enabled catalog raises [KeyError] whose message
    lists every key of the mapping, known and unknown, in mapping order;
    no sample name is drawn, no [add] runs, and the state is as before. *)
Theorem multi_add_unknown_names (w : world) (mapping : list (string * ndarray)) :
  write_enabled (w_cat w) ->
  (exists n, In n (map fst mapping) /\ dict_mem n (_arraysets (w_cat w)) = false) ->
  call_multi_add mapping w =
  (Err (KeyError (multi_add_keys_msg (map fst mapping))), w).
Proof.
  intros Hw Hn.
  unfold call_multi_add, call_slot. rewrite (slot_multi_add_write _ Hw).
  unfold Arraysets_multi_add.
  destruct (_is_conman (w_cat w)) eqn:Hc; simpl negb; cbv iota zeta.
  - rewrite (forallb_mem_false _ _ Hn). reflexivity.
  - unfold set_cat at 2 3; simpl w_cat. rewrite enter_arraysets.
    rewrite (forallb_mem_false _ (map fst mapping)).
    + unfold set_cat; simpl. rewrite enter_exit_cat. now destruct w.
    + destruct Hn as [n [Hin Hm]]. exists n. split; [exact Hin|].
      now rewrite dict_mem_map.
Qed.

Lemma forallb_mem_true (d : dict accessor) (mapping : list (string * ndarray)) :
  (forall n v, In (n, v) mapping -> exists a, dict_get n d = Some a) ->
  forallb (fun k => dict_mem k d) (map fst mapping) = true.
Proof.
  intros Hall. apply forallb_forall. intros k Hk.
  apply in_map_iff in Hk as [[k' v] [<- Hin]].
  destruct (Hall k' v Hin) as [a Ha]. unfold dict_mem. simpl. now rewrite Ha.
Qed.

(** C5.  On a write-enabled catalog, for a mapping whose names are all
    arraysets (a dict: each name once), [multi_add] draws one sample name
    [k], has each named accessor [add] its array under that same [k], and
    returns [k]; when every insertion is accepted each arrayset then holds
    its own array under [k], and the stores are untouched by the catalog
    itself. *)
Theorem multi_add_shared_key (w : world) (mapping : list (string * ndarray)) :
  write_enabled (w_cat w) ->
  dict_keys_unique mapping = true ->
  (forall n v, In (n, v) mapping ->
     exists a, dict_get n (_arraysets (w_cat w)) = Some a /\
       acc_writable a = true /\ sample_compatible (acc_schema a) v = true) ->
  exists w',
    call_multi_add mapping w = (Ok (generate_sample_name (w_seed w)), w') /\
    (forall n v, In (n, v) mapping ->
       exists a, dict_get n (_arraysets (w_cat w')) = Some a /\
         acc_get a (generate_sample_name (w_seed w)) = Some v) /\
    map fst (_arraysets (w_cat w')) = map fst (_arraysets (w_cat w)) /\
    w_dataenv w' = w_dataenv w /\ w_hashenv w' = w_hashenv w /\
    w_seed w' = S (w_seed w).
Proof.
  intros Hw Hu Hall.
  unfold call_multi_add, call_slot. rewrite (slot_multi_add_write _ Hw).
  unfold Arraysets_multi_add.
  set (dn := generate_sample_name (w_seed w)).
  destruct (_is_conman (w_cat w)) eqn:Hc; simpl negb; cbv iota zeta.
  - rewrite forallb_mem_true
      by (intros n v Hin; destruct (Hall n v Hin) as [a [Ha _]]; eauto).
    destruct (multi_add_loop_ok dn mapping (_arraysets (w_cat w)) Hu Hall)
      as [d' [Hloop [Hget [_ Hkeys]]]].
    fold dn. rewrite Hloop.
    eexists; split; [reflexivity|]. simpl.
    split; [exact Hget|]. repeat split. exact Hkeys.
  - unfold set_cat at 2 3; simpl w_cat. rewrite enter_arraysets.
    set (d0 := map (fun kv => (fst kv, acc___enter__ (snd kv))) (_arraysets (w_cat w))).
    assert (Hall0 : forall n v, In (n, v) mapping ->
      exists a, dict_get n d0 = Some a /\
        acc_writable a = true /\ sample_compatible (acc_schema a) v = true).
    { intros n v Hin. destruct (Hall n v Hin) as [a [Ha Hav]].
      exists (acc___enter__ a). unfold d0. rewrite dict_get_map, Ha. split; auto. }
    rewrite forallb_mem_true
      by (intros n v Hin; destruct (Hall0 n v Hin) as [a [Ha _]]; eauto).
    destruct (multi_add_loop_ok dn mapping d0 Hu Hall0)
      as [d' [Hloop [Hget [_ Hkeys]]]].
    simpl w_seed. fold dn. rewrite Hloop.
    eexists; split; [reflexivity|]. simpl.
    split; [|repeat split].
    + intros n v Hin. destruct (Hget n v Hin) as [a [Ha Hv]].
      exists (acc___exit__ a). rewrite dict_get_map, Ha. split; [reflexivity|exact Hv].
    + rewrite keys_map, Hkeys. unfold d0. apply keys_map.
Qed.

Lemma dict_set_new {V} (k : string) (v : V) (d : dict V) :
  dict_mem k d = false -> dict_set k v d = (d ++ [(k, v)])%list.
Proof.
  unfold dict_mem. induction d as [|[k' v'] t IH]; simpl; [reflexivity|].
  destruct (String.eqb k k'); [discriminate|]. intros Hm. now rewrite IH.
Qed.

Lemma dict_mem_app_single {V} (n k : string) (v : V) (d : dict V) :
  n <> k -> dict_mem n d = false -> dict_mem n (d ++ [(k, v)])%list = false.
Proof.
  intros Hne Hm. apply dict_mem_false_iff. apply dict_mem_false_iff in Hm.
  rewrite map_app. simpl. intros [Hin|[->|[]]]%in_app_or; [tauto|now apply Hne].
Qed.

Lemma generator_choice (writable : bool) (env : store) (n : string) (s : schema_spec) :
  (if schema_contains_subsamples s then generate_accessor SubsampleColumn writable env n s
   else generate_accessor SampleColumn writable env n s) =
  generate_accessor (column_variant_of s) writable env n s.
Proof. unfold column_variant_of. now destruct (schema_contains_subsamples s). Qed.

Lemma generate_accessor_ok (variant : column_variant) (writable : bool) (env : store)
  (n : string) (s : schema_spec) (smp : list (string * ndarray)) :
  column_setup variant writable env n s = Ok smp ->
  generate_accessor variant writable env n s = Ok (mk_accessor n variant writable s 0 smp).
Proof. intros E. unfold generate_accessor. now rewrite E. Qed.

(** Both factory loops: every queried schema gets its accessor, in query
    order, or the first failing generator aborts the loop. *)
Ltac factory_loop_ok b :=
  intros specs; induction specs as [|[n s] t IH]; intros acc Hu Hfresh Hgen;
  [ exists []; rewrite app_nil_r; split; [reflexivity|apply Forall2_nil]
  | simpl in Hu; apply andb_true_iff in Hu as [Hn Hu];
    apply negb_true_iff, dict_mem_false_iff in Hn;
    destruct (Hgen n s (or_introl eq_refl)) as [smp Hsmp];
    cbn [from_staging_loop from_commit_loop];
    unfold Subsample_generate_writer, Sample_generate_writer,
      Subsample_generate_reader, Sample_generate_reader;
    rewrite generator_choice, (generate_accessor_ok _ _ _ _ _ _ Hsmp);
    rewrite dict_set_new by (apply Hfresh; now left);
    destruct (IH (acc ++ [(n, mk_accessor n (column_variant_of s) b s 0 smp)])%list Hu)
      as [d [Hloop Hall]];
    [ intros m Hm; apply dict_mem_app_single;
        [intros ->; exact (Hn Hm) | apply Hfresh; now right]
    | intros m s' Hin; apply Hgen; now right
    | exists ((n, mk_accessor n (column_variant_of s) b s 0 smp) :: d);
      rewrite <- app_assoc in Hloop; split; [exact Hloop|];
      apply Forall2_cons; [repeat split | exact Hall] ] ].

Ltac factory_loop_err b :=
  intros specs; induction specs as [|[n s] t IH]; intros acc [m [s' [e [Hin He]]]];
  [ destruct Hin
  | cbn [from_staging_loop from_commit_loop];
    unfold Subsample_generate_writer, Sample_generate_writer,
      Subsample_generate_reader, Sample_generate_reader;
    rewrite generator_choice;
    destruct Hin as [Heq|Hin];
    [ injection Heq as -> ->; unfold generate_accessor; rewrite He; eauto
    | match goal with |- context [generate_accessor ?v ?w ?e ?m0 ?s0] =>
        destruct (generate_accessor v w e m0 s0) end; [|eauto];
      apply IH; eauto ] ].

Lemma from_staging_loop_ok (env : store) :
  forall specs acc, dict_keys_unique specs = true ->
  (forall n, In n (map fst specs) -> dict_mem n acc = false) ->
  (forall n s, In (n, s) specs ->
     exists smp, column_setup (column_variant_of s) true env n s = Ok smp) ->
  exists d, from_staging_loop env specs acc = Ok (acc ++ d)%list /\
    Forall2 (accessor_for true) specs d.
Proof. factory_loop_ok true. Qed.

Lemma from_commit_loop_ok (env : store) :
  forall specs acc, dict_keys_unique specs = true ->
  (forall n, In n (map fst specs) -> dict_mem n acc = false) ->
  (forall n s, In (n, s) specs ->
     exists smp, column_setup (column_variant_of s) false env n s = Ok smp) ->
  exists d, from_commit_loop env specs acc = Ok (acc ++ d)%list /\
    Forall2 (accessor_for false) specs d.
Proof. factory_loop_ok false. Qed.

Lemma from_staging_loop_err (env : store) :
  forall specs acc,
  (exists n s e, In (n, s) specs /\
     column_setup (column_variant_of s) true env n s = Err e) ->
  exists e, from_staging_loop env specs acc = Err e.
Proof. factory_loop_err true. Qed.

Lemma from_commit_loop_err (env : store) :
  forall specs acc,
  (exists n s e, In (n, s) specs /\
     column_setup (column_variant_of s) false env n s = Err e) ->
  exists e, from_commit_loop env specs acc = Err e.
Proof. factory_loop_err false. Qed.

(** C9.  For a record query returning [N] schemas (a dict: each name once):
    when every accessor generator succeeds, [_from_staging_area] returns a
    write-enabled catalog whose dict has exactly one entry per queried
    schema, in query order, each a writer of the variant the schema's
    [contains_subsamples] flag selects, and [_from_commit] returns a
    read-only catalog with one reader per schema likewise; when some
    generator fails, the factory raises and returns no catalog. *)
Theorem factories_build_every_accessor (repo_pth : string)
  (hashenv stageenv stagehashenv cmtrefenv : store) :
  dict_keys_unique (schema_specs stageenv) = true ->
  dict_keys_unique (schema_specs cmtrefenv) = true ->
  ((forall n s, In (n, s) (schema_specs stageenv) ->
      exists smp, column_setup (column_variant_of s) true stageenv n s = Ok smp) ->
   exists c, Arraysets__from_staging_area repo_pth hashenv stageenv stagehashenv = Ok c /\
     write_enabled c /\ _is_conman_counter c = 0%Z /\
     Forall2 (accessor_for true) (schema_specs stageenv) (_arraysets c)) /\
  ((exists n s e, In (n, s) (schema_specs stageenv) /\
      column_setup (column_variant_of s) true stageenv n s = Err e) ->
   exists e, Arraysets__from_staging_area repo_pth hashenv stageenv stagehashenv = Err e) /\
  ((forall n s, In (n, s) (schema_specs cmtrefenv) ->
      exists smp, column_setup (column_variant_of s) false cmtrefenv n s = Ok smp) ->
   exists c, Arraysets__from_commit repo_pth hashenv cmtrefenv = Ok c /\
     read_only c /\ _is_conman_counter c = 0%Z /\
     Forall2 (accessor_for false) (schema_specs cmtrefenv) (_arraysets c)) /\
  ((exists n s e, In (n, s) (schema_specs cmtrefenv) /\
      column_setup (column_variant_of s) false cmtrefenv n s = Err e) ->
   exists e, Arraysets__from_commit repo_pth hashenv cmtrefenv = Err e).
Proof.
  intros Hus Huc. split; [|split; [|split]].
  - intros Hgen.
    destruct (from_staging_loop_ok stageenv (schema_specs stageenv) [] Hus
                (fun _ _ => eq_refl) Hgen) as [d [Hloop Hall]].
    unfold Arraysets__from_staging_area. rewrite Hloop.
    eexists; split; [reflexivity|]. split; [split; reflexivity|].
    split; [reflexivity|exact Hall].
  - intros Herr.
    destruct (from_staging_loop_err stageenv (schema_specs stageenv) [] Herr)
      as [e He].
    unfold Arraysets__from_staging_area. rewrite He. eauto.
  - intros Hgen.
    destruct (from_commit_loop_ok cmtrefenv (schema_specs cmtrefenv) [] Huc
                (fun _ _ => eq_refl) Hgen) as [d [Hloop Hall]].
    unfold Arraysets__from_commit. rewrite Hloop.
    eexists; split; [reflexivity|]. split; [split; reflexivity|].
    split; [reflexivity|exact Hall].
  - intros Herr.
    destruct (from_commit_loop_err cmtrefenv (schema_specs cmtrefenv) [] Herr)
      as [e He].
    unfold Arraysets__from_commit. rewrite He. eauto.
Qed.

Lemma db_get_put_same (k v : string) (s : store) : db_get k (db_put k v s) = Some v.
Proof.
  induction s as [|[k' v'] t IH]; simpl; [now rewrite String.eqb_refl|].
  destruct (String.eqb k k') eqn:E; simpl; [now rewrite String.eqb_refl|].
  destruct (key_ltb k k'); simpl; [now rewrite String.eqb_refl|].
  now rewrite E.
Qed.

Lemma db_get_put_other (k k' v : string) (s : store) :
  k' <> k -> db_get k' (db_put k v s) = db_get k' s.
Proof.
  intros Hne. apply String.eqb_neq in Hne.
  induction s as [|[k2 v2] t IH]; simpl; [now rewrite Hne|].
  destruct (String.eqb k k2) eqn:E; simpl.
  - apply String.eqb_eq in E; subst k2. now rewrite Hne.
  - destruct (key_ltb k k2); simpl; [now rewrite Hne|].
    now rewrite IH.
Qed.

Lemma db_get_put_any (k k' v : string) (s : store) :
  db_get k' s = Some v -> db_get k' (db_put k v s) = Some v.
Proof.
  intros Hg. destruct (String.eqb k' k) eqn:E.
  - apply String.eqb_eq in E; subst. apply db_get_put_same.
  - apply String.eqb_neq in E. now rewrite db_get_put_other.
Qed.

Lemma dict_set_in {V} (n k : string) (a x : V) (d : dict V) :
  In (k, x) (dict_set n a d) -> (k, x) = (n, a) \/ In (k, x) d.
Proof.
  induction d as [|[k' v'] t IH]; simpl.
  - intros [H1|[]]. left; now symmetry.
  - destruct (String.eqb n k'); simpl.
    + intros [H1|H1]; [left; now symmetry|right; now right].
    + intros [H1|H1]; [right; now left|]. destruct (IH H1); [now left|right; now right].
Qed.

Lemma any_is_conman_add (c : Arraysets) (n : string) (a : accessor) :
  _any_is_conman c = false -> acc_is_conman a = false ->
  _any_is_conman (set_arraysets c (dict_set n a (_arraysets c))) = false.
Proof.
  unfold _any_is_conman. intros Hc Ha.
  assert (E1 : _is_conman (set_arraysets c (dict_set n a (_arraysets c))) = _is_conman c)
    by reflexivity.
  assert (E2 : _arraysets (set_arraysets c (dict_set n a (_arraysets c))) =
               dict_set n a (_arraysets c)) by reflexivity.
  rewrite E1, E2. cbn [existsb] in Hc |- *.
  apply orb_false_iff in Hc as [Hc Hd]. rewrite Hc. cbn [orb].
  destruct (existsb _ (map _ (dict_set n a (_arraysets c)))) eqn:E; [|reflexivity].
  apply existsb_exists in E as [b [Hb Hbt]].
  apply in_map_iff in Hb as [[k x] [Hkx Hin]]; simpl in Hkx; subst b.
  apply dict_set_in in Hin as [Heq|Hin].
  - injection Heq as -> ->. congruence.
  - assert (existsb (fun b => b) (map (fun kv => acc_is_conman (snd kv)) (_arraysets c))
            = true) as Ht.
    { apply existsb_exists. exists (acc_is_conman x). split; [|exact Hbt].
      apply in_map_iff. exists (k, x). split; [reflexivity|exact Hin]. }
    congruence.
Qed.

Lemma slot_init_arrayset_write (c : Arraysets) :
  write_enabled c -> slot_init_arrayset (_slots c) = ClassMethod.
Proof. intros [_ Hs]. now rewrite Hs. Qed.

Lemma init_arrayset_checks_same_mem (d d' : dict accessor) (name : string)
  shape dtype prototype named_samples variable_shape backend_opts :
  dict_mem name d = dict_mem name d' ->
  init_arrayset_checks d name shape dtype prototype named_samples variable_shape
    backend_opts =
  init_arrayset_checks d' name shape dtype prototype named_samples variable_shape
    backend_opts.
Proof. intros Hm. unfold init_arrayset_checks. now rewrite Hm. Qed.

(** When the stored schema value records the schema hash, two
    byte-identical schema values have the same hash key. *)
Lemma init_arrayset_hash_key_of_val (p1 p2 : ndarray) (b1 b2 : BackendOpts)
  (ns1 ns2 vs1 vs2 cs1 cs2 : bool) :
  (forall s, schema_hash (arrayset_record_schema_raw_val_from_db_val
                            (arrayset_record_schema_db_val_from_raw_val s)) =
             schema_hash s) ->
  init_arrayset_schema_val p2 b2 ns2 vs2 cs2 = init_arrayset_schema_val p1 b1 ns1 vs1 cs1 ->
  init_arrayset_hash_key p2 b2 ns2 vs2 = init_arrayset_hash_key p1 b1 ns1 vs1.
Proof.
  intros Hcodec Hv.
  apply (f_equal (fun v => schema_hash (arrayset_record_schema_raw_val_from_db_val v)))
    in Hv.
  unfold init_arrayset_schema_val in Hv. rewrite !Hcodec in Hv. simpl in Hv.
  unfold init_arrayset_hash_key. now rewrite Hv.
Qed.

(** C3.  After a successful [init_arrayset] on a write-enabled catalog, the
    hash store gained the schema value under the schema's hash key only if
    that key was absent ([overwrite=False]), and the key is present.  Then a
    second [init_arrayset] under another name, with any arguments that pass
    the argument checks and give a byte-identical schema value (for
    instance a prototype for the first and [shape] + [dtype] for the
    second), succeeds without error when the stored value records the
    schema hash: it uses the same hash key, both names are in the catalog,
    both schema records hold the same value, and the hash store is the one
    left by the first call. *)
Theorem init_arrayset_hash_write_once (w : world) (n1 : string)
  (shape : shape_arg) (dtype : option nat) (prototype : proto_arg)
  (named_samples variable_shape contains_subsamples : bool)
  (backend_opts : backend_opts_arg) (acc1 : accessor) (w1 : world) :
  write_enabled (w_cat w) ->
  call_init_arrayset n1 shape dtype prototype named_samples variable_shape
    contains_subsamples backend_opts w = (Ok acc1, w1) ->
  exists proto beopts,
    init_arrayset_checks (_arraysets (w_cat w)) n1 shape dtype prototype
      named_samples variable_shape backend_opts = Ok (proto, beopts) /\
    let hk := init_arrayset_hash_key proto beopts named_samples variable_shape in
    let v := init_arrayset_schema_val proto beopts named_samples variable_shape
               contains_subsamples in
    w_hashenv w1 = match db_get hk (w_hashenv w) with
                   | Some _ => w_hashenv w
                   | None => db_put hk v (w_hashenv w)
                   end /\
    db_get hk (w_hashenv w1) <> None /\
    (forall n2 shape2 dtype2 prototype2 named_samples2 variable_shape2
            contains_subsamples2 backend_opts2 proto2 beopts2,
     (forall s, schema_hash (arrayset_record_schema_raw_val_from_db_val
                               (arrayset_record_schema_db_val_from_raw_val s)) =
                schema_hash s) ->
     n2 <> n1 ->
     init_arrayset_checks (_arraysets (w_cat w)) n2 shape2 dtype2 prototype2
       named_samples2 variable_shape2 backend_opts2 = Ok (proto2, beopts2) ->
     init_arrayset_schema_val proto2 beopts2 named_samples2 variable_shape2
       contains_subsamples2 = v ->
     (forall env spec, exists smp,
        column_setup (if contains_subsamples2 then SubsampleColumn else SampleColumn)
          true env n2 spec = Ok smp) ->
     exists acc2 w2,
       call_init_arrayset n2 shape2 dtype2 prototype2 named_samples2 variable_shape2
         contains_subsamples2 backend_opts2 w1 = (Ok acc2, w2) /\
       init_arrayset_hash_key proto2 beopts2 named_samples2 variable_shape2 = hk /\
       dict_get n1 (_arraysets (w_cat w2)) = Some acc1 /\
       dict_get n2 (_arraysets (w_cat w2)) = Some acc2 /\
       db_get (arrayset_record_schema_db_key_from_raw_key n1) (w_dataenv w2) = Some v /\
       db_get (arrayset_record_schema_db_key_from_raw_key n2) (w_dataenv w2) = Some v /\
       w_hashenv w2 = w_hashenv w1).
Proof.
  intros Hw Hcall.
  unfold call_init_arrayset, call_slot in Hcall.
  rewrite (slot_init_arrayset_write _ Hw) in Hcall.
  unfold Arraysets_init_arrayset in Hcall.
  destruct (_any_is_conman (w_cat w)) eqn:Hc; [discriminate|].
  destruct (init_arrayset_checks _ n1 _ _ _ _ _ _) as [[proto beopts]|e] eqn:Hchk;
    [|discriminate].
  set (v := init_arrayset_schema_val proto beopts named_samples variable_shape
              contains_subsamples) in Hcall.
  set (hk := init_arrayset_hash_key proto beopts named_samples variable_shape) in Hcall.
  set (sk := arrayset_record_schema_db_key_from_raw_key) in Hcall.
  set (gen := if contains_subsamples then Subsample_generate_writer
              else Sample_generate_writer) in Hcall.
  set (data1 := db_put (sk n1) v (w_dataenv w)) in Hcall.
  set (hash1 := snd (db_put_nooverwrite hk v (w_hashenv w))) in Hcall.
  destruct (gen data1 n1 _) as [a1|e] eqn:Hg1; [|discriminate].
  injection Hcall as <- <-.
  exists proto, beopts. split; [reflexivity|].
  cbv zeta. fold v hk.
  assert (Hhash : hash1 = match db_get hk (w_hashenv w) with
                          | Some _ => w_hashenv w
                          | None => db_put hk v (w_hashenv w) end).
  { unfold hash1, db_put_nooverwrite. now destruct (db_get hk (w_hashenv w)). }
  assert (Hpresent : exists x, db_get hk hash1 = Some x).
  { rewrite Hhash. destruct (db_get hk (w_hashenv w)) eqn:E; eauto.
    rewrite db_get_put_same; eauto. }
  split; [exact Hhash|]. split.
  { destruct Hpresent as [x Hx]. simpl. rewrite Hx. discriminate. }
  intros n2 shape2 dtype2 prototype2 named_samples2 variable_shape2
    contains_subsamples2 backend_opts2 proto2 beopts2 Hcodec Hne Hchk2 Hv2 Hcol.
  assert (Hhk2 : init_arrayset_hash_key proto2 beopts2 named_samples2 variable_shape2
                 = hk)
    by exact (init_arrayset_hash_key_of_val proto proto2 beopts beopts2 named_samples
                named_samples2 variable_shape variable_shape2 contains_subsamples
                contains_subsamples2 Hcodec Hv2).
  assert (Ha1 : acc_is_conman a1 = false).
  { unfold gen, Subsample_generate_writer, Sample_generate_writer,
      generate_accessor in Hg1.
    destruct contains_subsamples, column_setup in Hg1; try discriminate;
      injection Hg1 as <-; reflexivity. }
  set (c1 := set_arraysets (w_cat w) (dict_set n1 a1 (_arraysets (w_cat w)))).
  assert (Hm2 : dict_mem n2 (_arraysets c1) = dict_mem n2 (_arraysets (w_cat w))).
  { unfold c1, dict_mem. simpl. rewrite dict_get_set.
    apply String.eqb_neq in Hne. now rewrite Hne. }
  rewrite (init_arrayset_checks_same_mem _ (_arraysets c1) n2) in Hchk2
    by (symmetry; exact Hm2).
  set (data2 := db_put (sk n2) v data1).
  destruct (Hcol data2 (arrayset_record_schema_raw_val_from_db_val v)) as [smp Hsmp].
  set (a2 := mk_accessor n2 (if contains_subsamples2 then SubsampleColumn
                             else SampleColumn)
               true (arrayset_record_schema_raw_val_from_db_val v) 0 smp).
  exists a2.
  exists (set_cat (mk_world c1 data2 hash1 (w_stagehashenv w) (w_seed w))
            (set_arraysets c1 (dict_set n2 a2 (_arraysets c1)))).
  split; [|split; [exact Hhk2|]].
  - unfold call_init_arrayset, call_slot. simpl w_cat.
    rewrite (slot_init_arrayset_write c1) by exact Hw.
    unfold Arraysets_init_arrayset. simpl w_cat.
    assert (Hc1 : _any_is_conman c1 = false) by (now apply any_is_conman_add).
    rewrite Hc1, Hchk2.
    rewrite Hv2, Hhk2. fold sk. simpl w_dataenv. simpl w_hashenv.
    assert (Hh2 : snd (db_put_nooverwrite hk v hash1) = hash1).
    { unfold db_put_nooverwrite. destruct Hpresent as [x Hx]. now rewrite Hx. }
    rewrite Hh2. fold data2.
    assert (Hg2 : (if contains_subsamples2 then Subsample_generate_writer
                   else Sample_generate_writer) data2 n2
                    (arrayset_record_schema_raw_val_from_db_val v) = Ok a2).
    { unfold Subsample_generate_writer, Sample_generate_writer, generate_accessor, a2.
      destruct contains_subsamples2; rewrite Hsmp; reflexivity. }
    rewrite Hg2. reflexivity.
  - simpl. unfold c1; simpl.
    split; [|split; [|split; [|split]]].
    + rewrite dict_get_set. rewrite (proj2 (String.eqb_neq n1 n2)) by congruence.
      rewrite dict_get_set, String.eqb_refl. reflexivity.
    + rewrite dict_get_set, String.eqb_refl. reflexivity.
    + unfold data2. apply db_get_put_any. unfold data1. apply db_get_put_same.
    + unfold data2. apply db_get_put_same.
    + reflexivity.
Qed.

(** The [prototype] branch of [init_arrayset] never looks at [shape] or
    [dtype]: a C-contiguous prototype is the template whatever they are. *)
Lemma init_arrayset_prototype_ignores_shape_dtype (shape : shape_arg)
  (dtype : option nat) (p : ndarray) :
  nd_c_contiguous p = true ->
  init_arrayset_prototype shape dtype (ProtoArray p) = Ok p.
Proof. intros Hc. simpl. now rewrite Hc. Qed.

(** Every failure of the validation of [init_arrayset] is raised with the
    state untouched (no schema record, no hash record, no catalog entry):
    the scoped-access check, whatever the other arguments, and each failure
    of the argument checks, which the scoped-access check precedes. *)
Lemma init_arrayset_fails_before_write (w : world) name shape dtype prototype
  named_samples variable_shape contains_subsamples backend_opts :
  write_enabled (w_cat w) ->
  (_any_is_conman (w_cat w) = true ->
   call_init_arrayset name shape dtype prototype named_samples variable_shape
     contains_subsamples backend_opts w = (Err (PermissionError conman_msg), w)) /\
  (forall e,
   init_arrayset_checks (_arraysets (w_cat w)) name shape dtype prototype
     named_samples variable_shape backend_opts = Err e ->
   call_init_arrayset name shape dtype prototype named_samples variable_shape
     contains_subsamples backend_opts w =
   (Err (if _any_is_conman (w_cat w) then PermissionError conman_msg else e), w)).
Proof.
  intros Hw. unfold call_init_arrayset.
  rewrite (slot_init_arrayset_write _ Hw). simpl.
  unfold Arraysets_init_arrayset. split.
  - intros Hc. now rewrite Hc.
  - intros e Hc. destruct (_any_is_conman (w_cat w)); [reflexivity|]. now rewrite Hc.
Qed.

End Claims.

(* ------------------------------------------------------------------ *)
(** * Further properties of [Arraysets] *)

(** ** The LMDB key order is a strict total order *)

Lemma ascii_compare_eq (a b : ascii) : Ascii.compare a b = Eq -> a = b.
Proof.
  unfold Ascii.compare. intros H. apply N.compare_eq in H.
  rewrite <- (ascii_N_embedding a), <- (ascii_N_embedding b), H. reflexivity.
Qed.

Lemma ascii_compare_lt_trans (a b c : ascii) :
  Ascii.compare a b = Lt -> Ascii.compare b c = Lt -> Ascii.compare a c = Lt.
Proof. unfold Ascii.compare. rewrite !N.compare_lt_iff. lia. Qed.

Lemma string_compare_lt_trans (a b c : string) :
  String.compare a b = Lt -> String.compare b c = Lt -> String.compare a c = Lt.
Proof.
  revert b c. induction a as [|x a IH]; intros [|y b] [|z c]; simpl;
    try discriminate; auto.
  destruct (Ascii.compare x y) eqn:E1; try discriminate;
    destruct (Ascii.compare y z) eqn:E2; try discriminate.
  - apply ascii_compare_eq in E1, E2. subst. rewrite ascii_compare_refl. apply IH.
  - apply ascii_compare_eq in E1. subst. now rewrite E2.
  - apply ascii_compare_eq in E2. subst. now rewrite E1.
  - now rewrite (ascii_compare_lt_trans _ _ _ E1 E2).
Qed.

Lemma key_ltb_trans (a b c : string) :
  key_ltb a b = true -> key_ltb b c = true -> key_ltb a c = true.
Proof.
  unfold key_ltb, String.ltb.
  destruct (String.compare a b) eqn:E1; try discriminate.
  destruct (String.compare b c) eqn:E2; try discriminate.
  now rewrite (string_compare_lt_trans _ _ _ E1 E2).
Qed.

Lemma key_ltb_total (a b : string) :
  String.eqb a b = false -> key_ltb a b = false -> key_ltb b a = true.
Proof.
  unfold key_ltb, String.ltb. intros Hne Hlt.
  rewrite String.compare_antisym.
  destruct (String.compare a b) eqn:E; try discriminate; [|reflexivity].
  apply String.compare_eq_iff in E. subst. now rewrite String.eqb_refl in Hne.
Qed.

Lemma forallb_fst_put (f : string -> bool) (k v : string) (s : store) :
  f k = true -> forallb (fun kv => f (fst kv)) s = true ->
  forallb (fun kv => f (fst kv)) (db_put k v s) = true.
Proof.
  intros Hk. induction s as [|[k' v'] t IH]; simpl; [now rewrite Hk|].
  intros [Hk' Ht]%andb_true_iff.
  destruct (String.eqb k k'); simpl; [now rewrite Hk, Ht|].
  destruct (key_ltb k k'); simpl; [now rewrite Hk, Hk', Ht|].
  rewrite Hk'. simpl. now apply IH.
Qed.

Lemma forallb_ltb_trans (k k' : string) (t : store) :
  key_ltb k k' = true -> forallb (fun kv => key_ltb k' (fst kv)) t = true ->
  forallb (fun kv => key_ltb k (fst kv)) t = true.
Proof.
  intros H1. induction t as [|[k2 v2] t IH]; simpl; [reflexivity|].
  intros [H2 Ht]%andb_true_iff. rewrite (key_ltb_trans _ _ _ H1 H2). now apply IH.
Qed.

(** [txn.put] keeps the records in key order. *)
Lemma keys_sorted_put (k v : string) (s : store) :
  keys_sorted s = true -> keys_sorted (db_put k v s) = true.
Proof.
  induction s as [|[k' v'] t IH]; simpl; [reflexivity|].
  intros [Hlt Ht]%andb_true_iff.
  destruct (String.eqb k k') eqn:Eq.
  - apply String.eqb_eq in Eq. subst. simpl. now rewrite Hlt, Ht.
  - destruct (key_ltb k k') eqn:Lt; simpl.
    + rewrite Lt, (forallb_ltb_trans _ _ _ Lt Hlt), Hlt, Ht. reflexivity.
    + rewrite (forallb_fst_put (key_ltb k') k v t (key_ltb_total _ _ Eq Lt) Hlt).
      simpl. now apply IH.
Qed.

(** A filter that drops every record under key [k] does not see a [put] at
    [k]. *)
Lemma filter_put_dropped (f : string * string -> bool) (k v : string) (s : store) :
  (forall x, f (k, x) = false) -> filter f (db_put k v s) = filter f s.
Proof.
  intros Hf. induction s as [|[k' v'] t IH]; simpl; [now rewrite Hf|].
  destruct (String.eqb k k') eqn:E.
  - apply String.eqb_eq in E. subst. simpl. now rewrite !Hf.
  - destruct (key_ltb k k'); simpl; [now rewrite Hf|].
    destruct (f (k', v')); now rewrite IH.
Qed.

(** ** Dict facts *)

Lemma dict_del_app_new {V} (k : string) (v : V) (d : dict V) :
  dict_mem k d = false -> dict_del k (d ++ [(k, v)])%list = d.
Proof.
  unfold dict_mem. induction d as [|[k' v'] t IH]; simpl.
  - now rewrite String.eqb_refl.
  - destruct (String.eqb k k'); [discriminate|]. intros Hm. now rewrite IH.
Qed.

Lemma dict_del_keys {V} (k : string) (d : dict V) :
  dict_keys_unique d = true ->
  map fst (dict_del k d) = filter (fun n => negb (String.eqb n k)) (map fst d).
Proof.
  induction d as [|[k' v'] t IH]; simpl; [reflexivity|].
  intros [Hn Hu]%andb_true_iff.
  destruct (String.eqb k k') eqn:E.
  - apply String.eqb_eq in E. subst. rewrite String.eqb_refl. simpl.
    symmetry. apply filter_all_true. apply forallb_forall. intros n Hin.
    apply negb_true_iff, String.eqb_neq. intros ->.
    apply negb_true_iff, dict_mem_false_iff in Hn. contradiction.
  - rewrite String.eqb_sym, E. simpl. now rewrite IH.
Qed.

Lemma dict_del_length {V} (k : string) (d : dict V) :
  dict_mem k d = true -> S (length (dict_del k d)) = length d.
Proof.
  unfold dict_mem. induction d as [|[k' v'] t IH]; simpl; [discriminate|].
  destruct (String.eqb k k'); [reflexivity|]. intros Hm. simpl. now rewrite IH.
Qed.

Lemma dict_get_unique_in {V} (k : string) (a : V) (d : dict V) :
  dict_keys_unique d = true -> In (k, a) d -> dict_get k d = Some a.
Proof.
  induction d as [|[k' v'] t IH]; simpl; [tauto|].
  intros [Hn Hu]%andb_true_iff [Heq|Hin].
  - injection Heq as -> ->. now rewrite String.eqb_refl.
  - destruct (String.eqb k k') eqn:E; [|now apply IH].
    apply String.eqb_eq in E. subst.
    apply negb_true_iff, dict_mem_false_iff in Hn.
    exfalso. apply Hn. now apply (in_map fst) in Hin.
Qed.

Section Extras.
Context `{Collaborators}.

Lemma init_arrayset_checks_ok_fresh (d : dict accessor) name shape dtype prototype
  named_samples variable_shape backend_opts r :
  init_arrayset_checks d name shape dtype prototype named_samples variable_shape
    backend_opts = Ok r ->
  dict_mem name d = false.
Proof.
  unfold init_arrayset_checks.
  destruct (negb (is_suitable_user_key name) || negb (is_ascii name)); [discriminate|].
  now destruct (dict_mem name d).
Qed.

(** What a successful [init_arrayset] did, step by step. *)
Lemma init_arrayset_ok_inv (w : world) name shape dtype prototype named_samples
  variable_shape contains_subsamples backend_opts acc1 w1 :
  write_enabled (w_cat w) ->
  call_init_arrayset name shape dtype prototype named_samples variable_shape
    contains_subsamples backend_opts w = (Ok acc1, w1) ->
  exists proto beopts smp,
    _any_is_conman (w_cat w) = false /\
    init_arrayset_checks (_arraysets (w_cat w)) name shape dtype prototype
      named_samples variable_shape backend_opts = Ok (proto, beopts) /\
    let v := init_arrayset_schema_val proto beopts named_samples variable_shape
               contains_subsamples in
    let data1 := db_put (arrayset_record_schema_db_key_from_raw_key name) v
                   (w_dataenv w) in
    let variant := if contains_subsamples then SubsampleColumn else SampleColumn in
    column_setup variant true data1 name
      (arrayset_record_schema_raw_val_from_db_val v) = Ok smp /\
    acc1 = mk_accessor name variant true
             (arrayset_record_schema_raw_val_from_db_val v) 0 smp /\
    w1 = mk_world
           (set_arraysets (w_cat w) (dict_set name acc1 (_arraysets (w_cat w))))
           data1
           (snd (db_put_nooverwrite
                   (init_arrayset_hash_key proto beopts named_samples variable_shape)
                   v (w_hashenv w)))
           (w_stagehashenv w) (w_seed w).
Proof.
  intros Hw Hcall.
  unfold call_init_arrayset, call_slot in Hcall.
  rewrite (slot_init_arrayset_write _ Hw) in Hcall.
  unfold Arraysets_init_arrayset in Hcall.
  destruct (_any_is_conman (w_cat w)) eqn:Hc; [discriminate|].
  destruct (init_arrayset_checks _ name _ _ _ _ _ _) as [[proto beopts]|e] eqn:Hchk;
    [|discriminate].
  unfold Subsample_generate_writer, Sample_generate_writer, generate_accessor in Hcall.
  destruct contains_subsamples;
  match type of Hcall with
  | context [column_setup ?var true ?env name ?sp] =>
      destruct (column_setup var true env name sp) as [smp|e] eqn:Hs
  end; try discriminate;
  exists proto, beopts, smp; injection Hcall as <- <-;
  (split; [reflexivity|]); (split; [reflexivity|]); cbv zeta;
  (split; [exact Hs|split; reflexivity]).
Qed.

(** A successful [init_arrayset name ...] on a write-enabled checkout
    registers [name]: it was not in the catalog, now it is, at the end of
    the key order, the length grows by one, [get(name)] returns the new
    writer accessor (of the variant [contains_subsamples] selects, bound to
    [name]), every other name still gets the same accessor, and the schema
    the accessor carries is the decoded schema record stored under [name]. *)
Theorem init_arrayset_registers_name (w : world) name shape dtype prototype
  named_samples variable_shape contains_subsamples backend_opts acc1 w1 :
  write_enabled (w_cat w) ->
  call_init_arrayset name shape dtype prototype named_samples variable_shape
    contains_subsamples backend_opts w = (Ok acc1, w1) ->
  Arraysets___contains__ (w_cat w) name = false /\
  Arraysets___contains__ (w_cat w1) name = true /\
  Arraysets_keys (w_cat w1) = (Arraysets_keys (w_cat w) ++ [name])%list /\
  Arraysets___len__ (w_cat w1) = S (Arraysets___len__ (w_cat w)) /\
  Arraysets_get (w_cat w1) name = Ok acc1 /\
  (forall y, y <> name -> Arraysets_get (w_cat w1) y = Arraysets_get (w_cat w) y) /\
  acc_name acc1 = name /\ acc_writable acc1 = true /\
  acc_variant acc1 = (if contains_subsamples then SubsampleColumn else SampleColumn) /\
  exists v, db_get (arrayset_record_schema_db_key_from_raw_key name) (w_dataenv w1)
              = Some v /\
            acc_schema acc1 = arrayset_record_schema_raw_val_from_db_val v.
Proof.
  intros Hw Hcall.
  destruct (init_arrayset_ok_inv _ _ _ _ _ _ _ _ _ _ _ Hw Hcall)
    as [proto [beopts [smp [_ [Hchk Hrest]]]]].
  cbv zeta in Hrest. destruct Hrest as [_ [Hacc Hw1]].
  pose proof (init_arrayset_checks_ok_fresh _ _ _ _ _ _ _ _ _ Hchk) as Hfresh.
  subst w1. cbn [w_cat w_dataenv].
  unfold Arraysets___contains__, Arraysets_keys, Arraysets___len__, Arraysets_get.
  cbn [_arraysets set_arraysets].
  rewrite Hfresh, (dict_set_new _ _ _ Hfresh).
  split; [reflexivity|].
  split; [rewrite <- (dict_set_new _ _ _ Hfresh); unfold dict_mem;
          now rewrite dict_get_set, String.eqb_refl|].
  split; [rewrite map_app; reflexivity|].
  split; [rewrite length_app; simpl; lia|].
  rewrite <- (dict_set_new _ _ _ Hfresh).
  split; [now rewrite dict_get_set, String.eqb_refl|].
  split.
  { intros y Hy. rewrite dict_get_set.
    now rewrite (proj2 (String.eqb_neq y name) Hy). }
  subst acc1. split; [reflexivity|]. split; [reflexivity|].
  split; [reflexivity|].
  eexists. split; [apply db_get_put_same|reflexivity].
Qed.

(** [init_arrayset] under a name that is already an arrayset (well formed,
    no open context) raises [LookupError('Arrayset already exists with
    name: ...')] whatever the other arguments, and changes nothing. *)
Theorem init_arrayset_existing_name (w : world) name shape dtype prototype
  named_samples variable_shape contains_subsamples backend_opts :
  write_enabled (w_cat w) -> _any_is_conman (w_cat w) = false ->
  is_suitable_user_key name = true -> is_ascii name = true ->
  Arraysets___contains__ (w_cat w) name = true ->
  call_init_arrayset name shape dtype prototype named_samples variable_shape
    contains_subsamples backend_opts w =
  (Err (LookupError ("Arrayset already exists with name: " ++ name ++ ".")), w).
Proof.
  intros Hw Hc Hs Ha Hm. unfold Arraysets___contains__ in Hm.
  unfold call_init_arrayset, call_slot.
  rewrite (slot_init_arrayset_write _ Hw).
  unfold Arraysets_init_arrayset, init_arrayset_checks.
  rewrite Hc, Hs, Ha. simpl. destruct (dict_mem name _); [reflexivity|discriminate].
Qed.

(** [delete] of a name that is not an arrayset (no open context) raises
    [KeyError('Cannot remove: ... Key does not exist.')] and changes
    nothing: the records store, the catalog and the other stores stay. *)
Theorem delete_missing_name (w : world) (aset_name : string) :
  write_enabled (w_cat w) -> _any_is_conman (w_cat w) = false ->
  Arraysets___contains__ (w_cat w) aset_name = false ->
  call_delete aset_name w =
  (Err (KeyError ("Cannot remove: " ++ aset_name ++ ". Key does not exist.")), w).
Proof.
  intros [_ Hs] Hc Hm. unfold Arraysets___contains__ in Hm.
  unfold call_delete, call_slot, Arraysets_delete. rewrite Hs. simpl.
  rewrite Hc. destruct (dict_mem aset_name _); [discriminate|reflexivity].
Qed.

(** After [delete(name)] of an existing arrayset, the catalog's keys are
    the old keys without [name] in the same order, its length is one less,
    and [catalog[name]] / [get(name)] raises [KeyError('No arrayset exists
    with name: ...')]. *)
Theorem delete_catalog_view (w : world) (x : string) :
  write_enabled (w_cat w) -> _any_is_conman (w_cat w) = false ->
  dict_keys_unique (_arraysets (w_cat w)) = true ->
  Arraysets___contains__ (w_cat w) x = true ->
  exists w', call_delete x w = (Ok x, w') /\
    Arraysets_keys (w_cat w') =
      filter (fun n => negb (String.eqb n x)) (Arraysets_keys (w_cat w)) /\
    S (Arraysets___len__ (w_cat w')) = Arraysets___len__ (w_cat w) /\
    Arraysets___contains__ (w_cat w') x = false /\
    Arraysets___getitem__ (w_cat w') x =
      Err (KeyError ("No arrayset exists with name: " ++ x)).
Proof.
  intros [_ Hs] Hc Hu Hm. unfold Arraysets___contains__ in Hm.
  destruct (dict_mem x (_arraysets (w_cat w))) eqn:Hm'; [|discriminate].
  eexists. split.
  { unfold call_delete, call_slot, Arraysets_delete. rewrite Hs. simpl.
    rewrite Hc, Hm'. simpl. reflexivity. }
  unfold Arraysets_keys, Arraysets___len__, Arraysets___contains__,
    Arraysets___getitem__, Arraysets_get.
  cbn [w_cat _arraysets set_arraysets].
  rewrite (dict_get_del_self _ _ Hu).
  split; [now apply dict_del_keys|].
  split; [now apply dict_del_length|].
  unfold dict_mem. rewrite (dict_get_del_self _ _ Hu). split; reflexivity.
Qed.

(** [init_arrayset(name, ...)] followed by [delete(name)] on a
    write-enabled checkout whose records store holds nothing under [name]
    (no record in its record-count range, no schema record) gives back the
    catalog and the records store exactly as they were; the hash store keeps
    the schema entry the first call may have added, and the staged-hash
    store and the sample-name generator are untouched. *)
Theorem init_then_delete_restores (w : world) name shape dtype prototype
  named_samples variable_shape contains_subsamples backend_opts acc1 w1 :
  write_enabled (w_cat w) ->
  keys_sorted (w_dataenv w) = true ->
  (forall k v, In (k, v) (w_dataenv w) ->
     startswith k (arrayset_record_count_range_key name) = false /\
     k <> arrayset_record_schema_db_key_from_raw_key name) ->
  call_init_arrayset name shape dtype prototype named_samples variable_shape
    contains_subsamples backend_opts w = (Ok acc1, w1) ->
  exists w2, call_delete name w1 = (Ok name, w2) /\
    w_cat w2 = w_cat w /\ w_dataenv w2 = w_dataenv w /\
    w_hashenv w2 = w_hashenv w1 /\ w_stagehashenv w2 = w_stagehashenv w /\
    w_seed w2 = w_seed w.
Proof.
  intros Hw Hsorted Hfree Hcall.
  destruct (init_arrayset_ok_inv _ _ _ _ _ _ _ _ _ _ _ Hw Hcall)
    as [proto [beopts [smp [Hc [Hchk Hrest]]]]].
  cbv zeta in Hrest. destruct Hrest as [_ [Hacc Hw1]].
  pose proof (init_arrayset_checks_ok_fresh _ _ _ _ _ _ _ _ _ Hchk) as Hfresh.
  set (rk := arrayset_record_count_range_key name) in *.
  set (sk := arrayset_record_schema_db_key_from_raw_key name) in *.
  set (v := init_arrayset_schema_val proto beopts named_samples variable_shape
              contains_subsamples) in *.
  set (P := fun kv : string * string =>
              negb (startswith (fst kv) rk) && negb (String.eqb (fst kv) sk)).
  assert (Hsorted1 : keys_sorted (db_put sk v (w_dataenv w)) = true)
    by now apply keys_sorted_put.
  assert (Hdata : db_delete sk (delete_range rk (db_put sk v (w_dataenv w))) =
                  w_dataenv w).
  { rewrite delete_range_filter by exact Hsorted1.
    rewrite db_delete_filter by (apply keys_sorted_filter; exact Hsorted1).
    rewrite filter_filter_andb. fold P.
    rewrite filter_put_dropped
      by (intros x; unfold P; simpl; rewrite String.eqb_refl, andb_false_r;
          reflexivity).
    apply filter_all_true. apply forallb_forall. intros [k x] Hin.
    destruct (Hfree k x Hin) as [H1 H2]. unfold not_in_range. cbn [fst]. rewrite H1.
    apply String.eqb_neq in H2. now rewrite H2. }
  assert (Ha1 : acc_is_conman acc1 = false) by (subst acc1; reflexivity).
  assert (Hc1 : _any_is_conman (w_cat w1) = false)
    by (subst w1; now apply any_is_conman_add).
  assert (Hm1 : dict_mem name (_arraysets (w_cat w1)) = true)
    by (subst w1; unfold dict_mem; simpl; now rewrite dict_get_set, String.eqb_refl).
  eexists. split.
  { unfold call_delete, call_slot, Arraysets_delete.
    assert (Hs1 : slot_delete (_slots (w_cat w1)) = ClassMethod)
      by (subst w1; destruct Hw as [_ Hs]; simpl; now rewrite Hs).
    rewrite Hs1, Hc1, Hm1. simpl. reflexivity. }
  subst w1. cbn [w_cat w_dataenv w_hashenv w_stagehashenv w_seed].
  split; [|split; [exact Hdata|split; [reflexivity|split; reflexivity]]].
  unfold set_arraysets. cbn [_arraysets _mode _repo_pth _is_conman_counter _slots].
  rewrite (dict_set_new _ _ _ Hfresh), (dict_del_app_new _ _ _ Hfresh).
  destruct (w_cat w); reflexivity.
Qed.

(** Each arrayset name with the reentrancy counter of its accessor. *)
Definition counters (d : dict accessor) : list (string * Z) :=
  map (fun kv => (fst kv, acc_is_conman_counter (snd kv))) d.

Lemma counters_dict_set_existing (k : string) (a a' : accessor) (d : dict accessor) :
  dict_get k d = Some a -> acc_is_conman_counter a' = acc_is_conman_counter a ->
  counters (dict_set k a' d) = counters d.
Proof.
  induction d as [|[k' v'] t IH]; simpl; [discriminate|].
  destruct (String.eqb k k') eqn:E.
  - intros Hg Hc. injection Hg as ->. apply String.eqb_eq in E. subst. simpl.
    now rewrite Hc.
  - intros Hg Hc. simpl. now rewrite (IH Hg Hc).
Qed.

Lemma acc_add_counter (a a' : accessor) (dn : string) (v : ndarray) :
  acc_add a dn v = Ok a' -> acc_is_conman_counter a' = acc_is_conman_counter a.
Proof.
  unfold acc_add. destruct (negb (acc_writable a)); [discriminate|].
  destruct (sample_compatible _ _); [|discriminate]. now intros [= <-].
Qed.

Lemma multi_add_loop_counters (dn : string) (items : list (string * ndarray)) :
  forall d r d', multi_add_loop dn items d = (r, d') -> counters d' = counters d.
Proof.
  induction items as [|[k v] t IH]; intros d r d' Hl; simpl in Hl.
  - now injection Hl as _ <-.
  - destruct (dict_get k d) as [a|] eqn:Eg; [|now injection Hl as _ <-].
    destruct (acc_add a dn v) as [a'|e] eqn:Ea; [|now injection Hl as _ <-].
    rewrite (IH _ _ _ Hl). apply (counters_dict_set_existing k a); [exact Eg|].
    now apply (acc_add_counter a a' dn v).
Qed.

Lemma multi_add_loop_other (dn k : string) (items : list (string * ndarray)) :
  forall d r d', multi_add_loop dn items d = (r, d') -> ~ In k (map fst items) ->
  dict_get k d' = dict_get k d.
Proof.
  induction items as [|[k1 v] t IH]; intros d r d' Hl Hk; simpl in Hl.
  - now injection Hl as _ <-.
  - destruct (dict_get k1 d) as [a|] eqn:Eg; [|now injection Hl as _ <-].
    destruct (acc_add a dn v) as [a'|e] eqn:Ea; [|now injection Hl as _ <-].
    rewrite (IH _ _ _ Hl) by (intros Hin; apply Hk; now right).
    rewrite dict_get_set. destruct (String.eqb k k1) eqn:E; [|reflexivity].
    apply String.eqb_eq in E. subst. exfalso. apply Hk. now left.
Qed.

Lemma multi_add_loop_first (dn k1 : string) (v1 : ndarray)
  (rest : list (string * ndarray)) (d : dict accessor) (a1 : accessor) r d' :
  dict_get k1 d = Some a1 -> acc_writable a1 = true ->
  sample_compatible (acc_schema a1) v1 = true -> ~ In k1 (map fst rest) ->
  multi_add_loop dn ((k1, v1) :: rest) d = (r, d') ->
  exists a, dict_get k1 d' = Some a /\ acc_get a dn = Some v1.
Proof.
  intros Hg Hw Hc Hk Hl. simpl in Hl. rewrite Hg in Hl.
  unfold acc_add in Hl. rewrite Hw, Hc in Hl. simpl in Hl.
  rewrite (multi_add_loop_other _ _ _ _ _ _ Hl Hk), dict_get_set, String.eqb_refl.
  eexists. split; [reflexivity|]. unfold acc_get, acc_set_samples. simpl.
  now rewrite dict_get_set, String.eqb_refl.
Qed.

Lemma counters_enter (d : dict accessor) :
  counters (map (fun kv => (fst kv, acc___enter__ (snd kv))) d) =
  map (fun p => (fst p, (snd p + 1)%Z)) (counters d).
Proof. induction d as [|[k a] t IH]; simpl; [reflexivity|]. now rewrite IH. Qed.

Lemma counters_exit (d : dict accessor) :
  counters (map (fun kv => (fst kv, acc___exit__ (snd kv))) d) =
  map (fun p => (fst p, (snd p - 1)%Z)) (counters d).
Proof. induction d as [|[k a] t IH]; simpl; [reflexivity|]. now rewrite IH. Qed.

Lemma counters_enter_exit (l : list (string * Z)) :
  map (fun p => (fst p, (snd p - 1)%Z)) (map (fun p => (fst p, (snd p + 1)%Z)) l) = l.
Proof.
  induction l as [|[k n] t IH]; simpl; [reflexivity|].
  rewrite IH. f_equal. f_equal. lia.
Qed.

(** Whether [multi_add] returns or raises, afterwards the catalog's
    counter and every accessor's counter are back to what they were (and the arrayset names
    are the same, in the same order), and the catalog is still
    write-enabled. *)
Theorem multi_add_restores_counters (w : world) (mapping : list (string * ndarray))
  (r : result string) (w' : world) :
  write_enabled (w_cat w) ->
  call_multi_add mapping w = (r, w') ->
  _is_conman_counter (w_cat w') = _is_conman_counter (w_cat w) /\
  counters (_arraysets (w_cat w')) = counters (_arraysets (w_cat w)) /\
  write_enabled (w_cat w').
Proof.
  intros Hw Hcall. destruct Hw as [Hm Hs].
  unfold call_multi_add, call_slot in Hcall. rewrite Hs in Hcall. simpl in Hcall.
  unfold Arraysets_multi_add in Hcall.
  destruct (_is_conman (w_cat w)) eqn:Ec; simpl in Hcall.
  - destruct (forallb _ _) eqn:Hf.
    + destruct (multi_add_loop _ _ _) as [r0 d] eqn:Hl.
      injection Hcall as _ <-. simpl.
      rewrite (multi_add_loop_counters _ _ _ _ _ Hl).
      split; [reflexivity|]. split; [reflexivity|]. now split.
    + injection Hcall as _ <-. split; [reflexivity|]. split; [reflexivity|]. now split.
  - destruct (forallb _ _) eqn:Hf.
    + destruct (multi_add_loop _ _ _) as [r0 d] eqn:Hl.
      injection Hcall as _ <-. simpl.
      split; [lia|]. split; [|now split].
      rewrite counters_exit, (multi_add_loop_counters _ _ _ _ _ Hl), counters_enter.
      apply counters_enter_exit.
    + injection Hcall as _ <-. simpl.
      split; [lia|]. split; [|now split].
      rewrite counters_exit, counters_enter. apply counters_enter_exit.
Qed.

(** [multi_add] does not roll back: once the first pair's [add] is
    accepted, that arrayset holds the array under the drawn sample name
    whatever happens to the later pairs (a later [add] that raises leaves
    it in place), and the sample name is drawn in every case. *)
Theorem multi_add_keeps_earlier_adds (w : world) (k1 : string) (v1 : ndarray)
  (rest : list (string * ndarray)) (a1 : accessor) (r : result string) (w' : world) :
  write_enabled (w_cat w) ->
  dict_get k1 (_arraysets (w_cat w)) = Some a1 ->
  acc_writable a1 = true -> sample_compatible (acc_schema a1) v1 = true ->
  ~ In k1 (map fst rest) ->
  (forall k, In k (map fst rest) -> Arraysets___contains__ (w_cat w) k = true) ->
  call_multi_add ((k1, v1) :: rest) w = (r, w') ->
  w_seed w' = S (w_seed w) /\
  exists a, Arraysets_get (w_cat w') k1 = Ok a /\
    acc_get a (generate_sample_name (w_seed w)) = Some v1.
Proof.
  intros Hw Hg1 Hwr Hcomp Hk1 Hrest Hcall. destruct Hw as [Hm Hs].
  assert (Hall : forallb (fun k => dict_mem k (_arraysets (w_cat w)))
                   (map fst ((k1, v1) :: rest)) = true).
  { simpl. unfold dict_mem at 1. rewrite Hg1. simpl.
    apply forallb_forall. intros k Hk. specialize (Hrest k Hk).
    unfold Arraysets___contains__ in Hrest.
    now destruct (dict_mem k (_arraysets (w_cat w))). }
  unfold call_multi_add, call_slot in Hcall. rewrite Hs in Hcall. simpl in Hcall.
  unfold Arraysets_multi_add in Hcall.
  destruct (_is_conman (w_cat w)) eqn:Ec;
    cbv beta iota zeta delta [negb] in Hcall.
  - rewrite Hall in Hcall.
    destruct (multi_add_loop _ _ _) as [r0 d] eqn:Hl.
    injection Hcall as _ <-. simpl. split; [reflexivity|].
    destruct (multi_add_loop_first _ _ _ _ _ _ _ _ Hg1 Hwr Hcomp Hk1 Hl)
      as [a [Ha Hget]].
    exists a. unfold Arraysets_get. simpl. now rewrite Ha.
  - cbn [set_cat w_cat w_seed] in Hcall. rewrite enter_arraysets in Hcall.
    assert (Hall' : forallb (fun k => dict_mem k
                      (map (fun kv => (fst kv, acc___enter__ (snd kv)))
                         (_arraysets (w_cat w)))) (map fst ((k1, v1) :: rest)) = true).
    { rewrite <- Hall. generalize (map fst ((k1, v1) :: rest)). intros l.
      induction l as [|k l IH]; simpl; [reflexivity|]. now rewrite dict_mem_map, IH. }
    rewrite Hall' in Hcall.
    destruct (multi_add_loop _ _ _) as [r0 d] eqn:Hl.
    injection Hcall as _ <-. simpl. split; [reflexivity|].
    assert (Hg1' : dict_get k1 (map (fun kv => (fst kv, acc___enter__ (snd kv)))
                     (_arraysets (w_cat w))) = Some (acc___enter__ a1))
      by (rewrite dict_get_map, Hg1; reflexivity).
    destruct (multi_add_loop_first _ _ _ _ _ _ _ _ Hg1' Hwr Hcomp Hk1 Hl)
      as [a [Ha Hget]].
    exists (acc___exit__ a). unfold Arraysets_get. simpl.
    rewrite dict_get_map, Ha. split; [reflexivity|]. exact Hget.
Qed.

Lemma dict_mem_same_keys {V W} (k : string) (d1 : dict V) (d2 : dict W) :
  map fst d1 = map fst d2 -> dict_mem k d1 = dict_mem k d2.
Proof.
  unfold dict_mem. revert d2.
  induction d1 as [|[k1 v1] t1 IH]; intros [|[k2 v2] t2]; simpl; try discriminate;
    [reflexivity|].
  intros [= <- Ht]. destruct (String.eqb k k1); [reflexivity|]. now apply IH.
Qed.

Lemma dict_keys_unique_same_keys {V W} (d1 : dict V) (d2 : dict W) :
  map fst d1 = map fst d2 -> dict_keys_unique d1 = dict_keys_unique d2.
Proof.
  revert d2. induction d1 as [|[k1 v1] t1 IH]; intros [|[k2 v2] t2]; simpl;
    try discriminate; [reflexivity|].
  intros [= <- Ht]. rewrite (dict_mem_same_keys _ _ _ Ht). now rewrite (IH _ Ht).
Qed.

Lemma accessor_for_keys (b : bool) (specs : list (string * schema_spec))
  (d : dict accessor) :
  Forall2 (accessor_for b) specs d -> map fst d = map fst specs.
Proof.
  induction 1 as [|ns na specs d [Hf _] _ IH]; simpl; [reflexivity|].
  now rewrite Hf, IH.
Qed.

Lemma accessor_for_in (b : bool) (specs : list (string * schema_spec))
  (d : dict accessor) (n : string) (s : schema_spec) :
  Forall2 (accessor_for b) specs d -> In (n, s) specs ->
  exists a, In (n, a) d /\ acc_name a = n /\ acc_writable a = b /\
    acc_variant a = column_variant_of s /\ acc_schema a = s.
Proof.
  induction 1 as [|[n' s'] [n2 a] specs d [Hf [Hn [Hw [Hv Hs]]]] _ IH]; [intros []|].
  intros [Heq|Hin].
  - injection Heq as -> ->. simpl in *. subst. exists a. repeat split; auto.
  - destruct (IH Hin) as [a' [Hin' Hr]]. exists a'. split; [now right|exact Hr].
Qed.

(** A catalog read back from a staging store is writeable, lists the
    queried arrayset names in query order as its keys, and [get(name)]
    gives for each queried [(name, schema)] a writer accessor bound to
    [name] with that schema; one read back from a commit is not writeable
    and gives reader accessors likewise. *)
Theorem factories_catalog_view (repo_pth : string)
  (hashenv stageenv stagehashenv cmtrefenv : store) :
  dict_keys_unique (schema_specs stageenv) = true ->
  dict_keys_unique (schema_specs cmtrefenv) = true ->
  ((forall n s, In (n, s) (schema_specs stageenv) ->
      exists smp, column_setup (column_variant_of s) true stageenv n s = Ok smp) ->
   exists c, Arraysets__from_staging_area repo_pth hashenv stageenv stagehashenv = Ok c /\
     Arraysets_iswriteable c = true /\
     Arraysets_keys c = map fst (schema_specs stageenv) /\
     forall n s, In (n, s) (schema_specs stageenv) ->
       exists a, Arraysets_get c n = Ok a /\ acc_name a = n /\
         acc_writable a = true /\ acc_schema a = s) /\
  ((forall n s, In (n, s) (schema_specs cmtrefenv) ->
      exists smp, column_setup (column_variant_of s) false cmtrefenv n s = Ok smp) ->
   exists c, Arraysets__from_commit repo_pth hashenv cmtrefenv = Ok c /\
     Arraysets_iswriteable c = false /\
     Arraysets_keys c = map fst (schema_specs cmtrefenv) /\
     forall n s, In (n, s) (schema_specs cmtrefenv) ->
       exists a, Arraysets_get c n = Ok a /\ acc_name a = n /\
         acc_writable a = false /\ acc_schema a = s).
Proof.
  intros Hu1 Hu2. split.
  - intros Hgen.
    destruct (from_staging_loop_ok stageenv (schema_specs stageenv) [] Hu1
                (fun n _ => eq_refl) Hgen) as [d [Hl Hf]].
    exists (Arraysets___init__ "a" repo_pth d).
    unfold Arraysets__from_staging_area. rewrite Hl.
    assert (Hk := accessor_for_keys _ _ _ Hf).
    assert (Hud : dict_keys_unique d = true)
      by (rewrite (dict_keys_unique_same_keys _ _ Hk); exact Hu1).
    split; [reflexivity|]. split; [reflexivity|]. split; [exact Hk|].
    intros n s Hin. destruct (accessor_for_in _ _ _ _ _ Hf Hin)
      as [a [Hina [Hn [Hw [_ Hs]]]]].
    exists a. unfold Arraysets_get. simpl.
    rewrite (dict_get_unique_in _ _ _ Hud Hina). auto.
  - intros Hgen.
    destruct (from_commit_loop_ok cmtrefenv (schema_specs cmtrefenv) [] Hu2
                (fun n _ => eq_refl) Hgen) as [d [Hl Hf]].
    exists (Arraysets___init__ "r" repo_pth d).
    unfold Arraysets__from_commit. rewrite Hl.
    assert (Hk := accessor_for_keys _ _ _ Hf).
    assert (Hud : dict_keys_unique d = true)
      by (rewrite (dict_keys_unique_same_keys _ _ Hk); exact Hu2).
    split; [reflexivity|]. split; [reflexivity|]. split; [exact Hk|].
    intros n s Hin. destruct (accessor_for_in _ _ _ _ _ Hf Hin)
      as [a [Hina [Hn [Hw [_ Hs]]]]].
    exists a. unfold Arraysets_get. simpl.
    rewrite (dict_get_unique_in _ _ _ Hud Hina). auto.
Qed.

Lemma leave_entered (d : dict accessor) :
  map (fun kv => if existsb (String.eqb (fst kv)) (map fst d)
                 then (fst kv, acc___exit__ (snd kv)) else kv)
    (map (fun kv => (fst kv, acc___enter__ (snd kv))) d) = d.
Proof.
  rewrite map_map. rewrite <- (map_id d) at 2. apply map_ext_in.
  intros [k a] Hin. simpl.
  assert (Hk : existsb (String.eqb k) (map fst d) = true).
  { apply existsb_exists. exists k. split; [|apply String.eqb_refl].
    apply in_map_iff. exists (k, a). split; [reflexivity|exact Hin]. }
  rewrite Hk. now rewrite acc_enter_exit.
Qed.

Lemma leave_none (d : dict accessor) :
  map (fun kv => if existsb (String.eqb (fst kv)) [] then (fst kv, acc___exit__ (snd kv))
                 else kv) d = d.
Proof. simpl. apply map_id. Qed.

(** [with catalog:] with [_stack] kept, on a catalog not inside a context
    (whatever [_stack] held): inside, the catalog counts as opened in a
    context manager and every accessor's counter is one higher; leaving
    raises nothing and gives back the catalog exactly, with an empty
    (closed) ExitStack in [_stack]. *)
Theorem enter_exit_roundtrip (c : Arraysets) (st : stack_attr) :
  (0 <= _is_conman_counter c)%Z ->
  _any_is_conman (cc_cat (conman___enter__ (mk_conman_catalog c st))) = true /\
  counters (_arraysets (cc_cat (conman___enter__ (mk_conman_catalog c st)))) =
    map (fun p => (fst p, (snd p + 1)%Z)) (counters (_arraysets c)) /\
  conman___exit__ (conman___enter__ (mk_conman_catalog c st)) =
    (Ok tt, mk_conman_catalog c (StackExit [])).
Proof.
  intros Hc. split; [|split].
  - apply any_is_conman_true. left. simpl. lia.
  - apply counters_enter.
  - destruct c as [m r d n sl].
    unfold conman___exit__, conman___enter__, Arraysets___enter__, set_arraysets,
      set_counter; simpl.
    rewrite leave_entered. do 3 f_equal. lia.
Qed.

(** A [with catalog:] nested in another [with catalog:] does not give the
    accessors back: the inner [__enter__] replaces [_stack], so the inner
    [__exit__] leaves the accessors once and the outer one finds an empty
    ExitStack.  After both blocks the catalog counter is back, but every
    accessor is still entered once; so, as soon as one accessor had a
    non-negative counter, the catalog keeps counting as opened in a
    context manager and [init_arrayset] and [delete] raise
    [PermissionError] from then on. *)
Theorem nested_with_leaves_accessors_entered (c : Arraysets) (st : stack_attr) :
  let c' := set_arraysets c
              (map (fun kv => (fst kv, acc___enter__ (snd kv))) (_arraysets c)) in
  exists s3,
    conman___exit__ (conman___enter__ (conman___enter__ (mk_conman_catalog c st)))
      = (Ok tt, s3) /\
    conman___exit__ s3 = (Ok tt, mk_conman_catalog c' (StackExit [])) /\
    _is_conman_counter c' = _is_conman_counter c /\
    counters (_arraysets c') =
      map (fun p => (fst p, (snd p + 1)%Z)) (counters (_arraysets c)) /\
    ((exists n a, In (n, a) (_arraysets c) /\ (0 <= acc_is_conman_counter a)%Z) ->
     _any_is_conman c' = true /\
     (write_enabled c -> forall w,
        (forall name shape dtype prototype named_samples variable_shape
                contains_subsamples backend_opts,
           call_init_arrayset name shape dtype prototype named_samples
             variable_shape contains_subsamples backend_opts (set_cat w c') =
           (Err (PermissionError conman_msg), set_cat w c')) /\
        (forall aset_name, call_delete aset_name (set_cat w c') =
           (Err (PermissionError conman_msg), set_cat w c')))).
Proof.
  intros c'.
  set (d1 := map (fun kv => (fst kv, acc___enter__ (snd kv))) (_arraysets c)).
  exists (mk_conman_catalog
            (mk_Arraysets (_mode c) (_repo_pth c) d1 (_is_conman_counter c + 1)%Z
               (_slots c)) (StackExit [])).
  split; [|split; [|split; [|split]]].
  - destruct c as [m r d n sl].
    unfold conman___exit__, conman___enter__, Arraysets___enter__, set_arraysets,
      set_counter; simpl.
    rewrite leave_entered.
    replace (n + 1 + 1 - 1)%Z with (n + 1)%Z by lia. reflexivity.
  - destruct c as [m r d n sl].
    unfold conman___exit__, set_arraysets, set_counter, c'; simpl.
    rewrite leave_none.
    replace (n + 1 - 1)%Z with n by lia. reflexivity.
  - reflexivity.
  - apply counters_enter.
  - intros [n [a [Hin Ha]]].
    assert (Hany : _any_is_conman c' = true).
    { apply any_is_conman_true. right. exists n, (acc___enter__ a). split.
      - unfold c', set_arraysets; simpl. apply in_map_iff.
        exists (n, a). split; [reflexivity|exact Hin].
      - unfold acc___enter__, acc_set_counter; simpl. lia. }
    split; [exact Hany|]. intros [_ Hs] w.
    assert (Hs' : _slots c' = Arraysets___setup "a") by exact Hs.
    unfold call_init_arrayset, call_delete, call_slot, Arraysets_init_arrayset,
      Arraysets_delete.
    simpl w_cat. rewrite Hs'. simpl. rewrite Hany.
    split; reflexivity.
Qed.

(** The product of the non-zero sizes, the factor [npy_nbytes_loop]
    multiplies [nbytes] by. *)
Definition nonzero_prod (dims : list Z) : Z :=
  fold_right (fun d acc => if Z.eqb d 0 then acc else (d * acc)%Z) 1%Z dims.

Lemma nonzero_prod_pos (dims : list Z) :
  (forall x, In x dims -> (0 <= x)%Z) -> (1 <= nonzero_prod dims)%Z.
Proof.
  induction dims as [|d t IH]; intros Hn; simpl; [lia|].
  assert (Ht : (1 <= nonzero_prod t)%Z) by (apply IH; intros x Hx; apply Hn; now right).
  assert (Hd : (0 <= d)%Z) by (apply Hn; now left).
  destruct (Z.eqb_spec d 0); [exact Ht|nia].
Qed.

Lemma npy_nbytes_loop_app (a : Z) (pre post : list Z) :
  (0 <= a <= NPY_MAX_INTP)%Z -> (forall x, In x pre -> (0 <= x)%Z) ->
  npy_nbytes_loop a (pre ++ post)%list =
  if Z.leb (a * nonzero_prod pre) NPY_MAX_INTP
  then npy_nbytes_loop (a * nonzero_prod pre) post
  else Err (ValueError too_big_msg).
Proof.
  revert a. induction pre as [|d t IH]; intros a Ha Hn; simpl.
  - rewrite Z.mul_1_r. destruct (Z.leb_spec a NPY_MAX_INTP); [reflexivity|lia].
  - assert (Hd : (0 <= d)%Z) by (apply Hn; now left).
    assert (Ht : forall x, In x t -> (0 <= x)%Z) by (intros x Hx; apply Hn; now right).
    assert (Hp := nonzero_prod_pos t Ht).
    destruct (Z.eqb_spec d 0) as [Hz|Hz]; [now apply IH|].
    destruct (Z.ltb_spec d 0); [lia|].
    destruct (Z.ltb_spec NPY_MAX_INTP (a * d)) as [Hb|Hb].
    + destruct (Z.leb_spec (a * (d * nonzero_prod t)) NPY_MAX_INTP); [nia|reflexivity].
    + rewrite IH by (try lia; exact Ht). now rewrite Z.mul_assoc.
Qed.

(** [init_arrayset] from [shape] (a tuple or list) and [dtype], with a
    valid new name and no open context, raises and writes nothing when
    [np.zeros] or the shape check refuses the shape: more than 32 sizes give
    numpy's [ValueError('maximum supported dimension for an ndarray is 32,
    found n')]; among in-range sizes, the first negative one gives
    [ValueError('negative dimensions are not allowed')] unless the sizes
    before it already overflow [nbytes], which gives numpy's [ValueError('array
    is too big; ...')]; and a shape [np.zeros] accepts but that holds a 0 or
    has 32 dimensions (rank above 31) gives [ValueError('Invalid shape
    specification ...')]. *)
Theorem init_arrayset_rejects_bad_dims (w : world) (name : string) (shape : shape_arg)
  (dims : list Z) (dt : nat) named_samples variable_shape contains_subsamples
  backend_opts :
  write_enabled (w_cat w) -> _any_is_conman (w_cat w) = false ->
  is_suitable_user_key name = true -> is_ascii name = true ->
  Arraysets___contains__ (w_cat w) name = false ->
  (shape = ShapeTuple dims \/ shape = ShapeList dims) ->
  let call := call_init_arrayset name shape (Some dt) ProtoNone named_samples
                variable_shape contains_subsamples backend_opts w in
  ((32 < length dims)%nat ->
   call = (Err (ValueError ("maximum supported dimension for an ndarray is 32, found "
                            ++ nat_repr (length dims))), w)) /\
  ((length dims <= 32)%nat -> (forall d, In d dims -> npy_intp_in_range d = true) ->
   (0 <= dtype_itemsize dt <= NPY_MAX_INTP)%Z ->
   ((forall d, In d dims -> (0 <= d)%Z) ->
    (dtype_itemsize dt * nonzero_prod dims <= NPY_MAX_INTP)%Z ->
    np_zeros_alloc_ok dims dt = true ->
    (In 0%Z dims \/ length dims = 32%nat) ->
    exists msg, call = (Err (ValueError msg), w) /\
      String.prefix "Invalid shape specification" msg = true) /\
   (forall pre d post, dims = (pre ++ d :: post)%list ->
    (forall x, In x pre -> (0 <= x)%Z) -> (d < 0)%Z ->
    (dtype_itemsize dt * nonzero_prod pre <= NPY_MAX_INTP)%Z ->
    call = (Err (ValueError "negative dimensions are not allowed"), w)) /\
   (forall pre post, dims = (pre ++ post)%list -> (forall x, In x pre -> (0 <= x)%Z) ->
    (NPY_MAX_INTP < dtype_itemsize dt * nonzero_prod pre)%Z ->
    call = (Err (ValueError too_big_msg), w))).
Proof.
  intros Hw Hc Hs Ha Hm Hshape call. unfold Arraysets___contains__ in Hm.
  assert (Hm' : dict_mem name (_arraysets (w_cat w)) = false)
    by (destruct (dict_mem name _); [discriminate|reflexivity]).
  assert (Hcall : forall r,
    init_arrayset_prototype shape (Some dt) ProtoNone = Err r \/
    (exists p, init_arrayset_prototype shape (Some dt) ProtoNone = Ok p /\
       (existsb (Z.eqb 0) (nd_shape p) || Nat.ltb 31 (nd_ndim p)) = true /\
       r = ValueError "Invalid shape specification.") ->
    call = (Err r, w)).
  { intros r Hr. unfold call, call_init_arrayset, call_slot.
    rewrite (slot_init_arrayset_write _ Hw).
    unfold Arraysets_init_arrayset, init_arrayset_checks. rewrite Hc, Hs, Ha, Hm'.
    cbn [negb orb]. destruct Hr as [Hr|[p [Hp [Hb ->]]]]; [now rewrite Hr|].
    rewrite Hp, Hb. reflexivity. }
  assert (Hz : init_arrayset_prototype shape (Some dt) ProtoNone =
    if Nat.ltb 32 (length dims) then
      Err (ValueError ("maximum supported dimension for an ndarray is 32, found " ++
                       nat_repr (length dims)))
    else if existsb (fun d => negb (npy_intp_in_range d)) dims then
      Err (ValueError "Maximum allowed dimension exceeded")
    else
      match npy_nbytes_loop (dtype_itemsize dt) dims with
      | Err e => Err e
      | Ok _ =>
          if np_zeros_alloc_ok dims dt then
            Ok (mk_ndarray dims dt true
                  (repeat 0%Z (Z.to_nat (fold_right Z.mul 1%Z dims))))
          else Err (MemoryError "Unable to allocate array")
      end) by (destruct Hshape as [->| ->]; reflexivity).
  split.
  { intros Hlen. apply Hcall. left. rewrite Hz.
    apply Nat.ltb_lt in Hlen. now rewrite Hlen. }
  intros Hlen Hrange Hisz.
  assert (Hlen' : Nat.ltb 32 (length dims) = false) by (apply Nat.ltb_ge; lia).
  assert (Hr : existsb (fun d => negb (npy_intp_in_range d)) dims = false).
  { apply not_true_iff_false. intros [d [Hin Hd]]%existsb_exists.
    rewrite (Hrange d Hin) in Hd. discriminate. }
  rewrite Hlen', Hr in Hz.
  split; [|split].
  - intros Hnn Hsmall Halloc Hbad.
    exists "Invalid shape specification.". split; [|reflexivity].
    apply Hcall. right.
    assert (Hl := npy_nbytes_loop_app (dtype_itemsize dt) dims [] Hisz Hnn).
    rewrite app_nil_r in Hl.
    destruct (Z.leb_spec (dtype_itemsize dt * nonzero_prod dims) NPY_MAX_INTP);
      [|lia].
    rewrite Hl in Hz. simpl in Hz. rewrite Halloc in Hz.
    eexists. split; [exact Hz|]. split; [|reflexivity].
    unfold nd_ndim. simpl. destruct Hbad as [Hin|Heq].
    + assert (Hzero : existsb (Z.eqb 0) dims = true)
        by (apply existsb_exists; exists 0%Z; split; [exact Hin|reflexivity]).
      now rewrite Hzero.
    + rewrite Heq. apply orb_true_r.
  - intros pre d post -> Hnn Hd Hsmall. apply Hcall. left. rewrite Hz.
    rewrite (npy_nbytes_loop_app _ _ _ Hisz Hnn).
    destruct (Z.leb_spec (dtype_itemsize dt * nonzero_prod pre) NPY_MAX_INTP); [|lia].
    simpl. destruct (Z.eqb_spec d 0); [lia|]. destruct (Z.ltb_spec d 0); [|lia].
    reflexivity.
  - intros pre post -> Hnn Hbig. apply Hcall. left. rewrite Hz.
    rewrite (npy_nbytes_loop_app _ _ _ Hisz Hnn).
    destruct (Z.leb_spec (dtype_itemsize dt * nonzero_prod pre) NPY_MAX_INTP); [lia|].
    reflexivity.
Qed.

End Extras.

(* ------------------------------------------------------------------ *)
(** * The demo checkout *)

#[local] Existing Instance Demo.demo_collaborators.

(** C2 (code behaviour).  [init_arrayset('y', shape=(3,), dtype=np.int64,
    prototype=np.zeros((2,), np.float32))] is not refused although both
    the prototype and [shape] + [dtype] are given: the prototype is used
    and [shape] and [dtype] are dropped, so the call does exactly what the
    call with the prototype alone does, writing a schema of shape [(2,)]
    and dtype [float32], while [shape] + [dtype] alone would give the
    schema of shape [(3,)] and dtype [int64]. *)
Theorem init_arrayset_prototype_and_shape_accepted :
  call_init_arrayset "y" (ShapeTuple [3%Z]) (Some 7)
    (ProtoArray (Demo.arr 11 [2%Z])) true false false BOptsNone Demo.write_world
  = Demo.init_y /\
  fst Demo.init_y = Ok Demo.acc_y /\
  db_get "s:y" (w_dataenv Demo.world_y) =
    Some (Demo.digest [2%Z] 2 11 true false "00" []) /\
  (exists a w',
     call_init_arrayset "y" (ShapeTuple [3%Z]) (Some 7) ProtoNone true false
       false BOptsNone Demo.write_world = (Ok a, w') /\
     db_get "s:y" (w_dataenv w') = Some (Demo.digest [3%Z] 3 7 true false "00" [])).
Proof.
  split; [|split; [|split]].
  - assert (Hw : write_enabled (w_cat Demo.write_world)) by (split; reflexivity).
    unfold call_init_arrayset, Demo.init_y.
    rewrite (slot_init_arrayset_write _ Hw).
    unfold call_slot, Arraysets_init_arrayset, init_arrayset_checks.
    rewrite !init_arrayset_prototype_ignores_shape_dtype by reflexivity.
    reflexivity.
  - vm_compute. reflexivity.
  - vm_compute. reflexivity.
  - vm_compute. do 2 eexists. split; reflexivity.
Qed.

(** C1 counterexample.  On the read-only [read_world], calling
    [init_arrayset] with valid arguments raises the [TypeError] of calling
    [None], which is not a [PermissionError]. *)
Lemma read_only_init_arrayset_type_error :
  fst (call_init_arrayset "y" (ShapeTuple [2%Z]) (Some 11) ProtoNone true false
         false BOptsNone Demo.read_world) = Err none_not_callable /\
  is_permission_error none_not_callable = false.
Proof. split; reflexivity. Qed.

(** Instance of C1 (amended) on [read_world]. *)
Lemma read_only_structural_ops_fail_witness :
  read_only (w_cat Demo.read_world) /\
  call_delete "x" Demo.read_world = (Err none_not_callable, Demo.read_world) /\
  subscript_delete "x" Demo.read_world = (Err none_not_callable, Demo.read_world).
Proof.
  assert (H : read_only (w_cat Demo.read_world)) by (split; reflexivity).
  destruct (read_only_structural_ops_fail Demo.read_world H) as [_ [Hd [_ Hs]]].
  split; [exact H|split; [apply Hd|apply Hs]].
Defined.

(** Instance of C7 inside [with catalog:] on [write_world]. *)
Lemma structural_ops_refused_while_conman_witness :
  write_enabled (w_cat Demo.entered_world) /\
  _is_conman_counter (w_cat Demo.entered_world) <> 0%Z /\
  call_delete "x" Demo.entered_world =
    (Err (PermissionError conman_msg), Demo.entered_world).
Proof.
  assert (Hw : write_enabled (w_cat Demo.entered_world)) by (split; reflexivity).
  assert (Hc : _is_conman_counter (w_cat Demo.entered_world) <> 0%Z)
    by (vm_compute; discriminate).
  split; [exact Hw|split; [exact Hc|]].
  apply (structural_ops_refused_while_conman Demo.entered_world Hw (or_introl Hc)).
Defined.

(** Instance of C4: [delete('x')] on [write_world] keeps the records of
    [x2]. *)
Lemma delete_removes_range_and_schema_witness :
  write_enabled (w_cat Demo.write_world) /\
  exists w', call_delete "x" Demo.write_world = (Ok "x", w') /\
    ~ In "x" (map fst (_arraysets (w_cat w'))) /\
    w_dataenv w' = [("a:x2:k1", "r3"); ("s:x2", "h")].
Proof.
  assert (Hw : write_enabled (w_cat Demo.write_world)) by (split; reflexivity).
  assert (H1 : _any_is_conman (w_cat Demo.write_world) = false) by reflexivity.
  assert (H2 : dict_keys_unique (_arraysets (w_cat Demo.write_world)) = true)
    by reflexivity.
  assert (H3 : dict_mem "x" (_arraysets (w_cat Demo.write_world)) = true)
    by reflexivity.
  assert (H4 : keys_sorted (w_dataenv Demo.write_world) = true)
    by (vm_compute; reflexivity).
  destruct (delete_removes_range_and_schema Demo.write_world "x" Hw H1 H2 H3 H4)
    as [w' [Hc [Hn [_ [Hd _]]]]].
  split; [exact Hw|]. exists w'. split; [exact Hc|split; [exact Hn|]].
  rewrite Hd. vm_compute. reflexivity.
Defined.

(** Instance of C10 on [write_world]. *)
Lemma multi_add_empty_mapping_witness :
  write_enabled (w_cat Demo.write_world) /\
  exists w', call_multi_add [] Demo.write_world = (Ok "sample0", w') /\
    w_cat w' = w_cat Demo.write_world.
Proof.
  assert (Hw : write_enabled (w_cat Demo.write_world)) by (split; reflexivity).
  destruct (multi_add_empty_mapping Demo.write_world Hw) as [w' [Hc [Hcat _]]].
  split; [exact Hw|]. exists w'. split; [exact Hc|exact Hcat].
Defined.

(** C6 counterexample.  [multi_add({'x': a, 'zz': b})] on [write_world]
    names the existing arrayset [x] in its [KeyError] message too. *)
Lemma multi_add_message_lists_known_keys :
  call_multi_add [("x", Demo.arr 11 [2%Z]); ("zz", Demo.arr 11 [2%Z])]
    Demo.write_world =
  (Err (KeyError "not all keys ['x', 'zz'] exist as arrayset names"),
   Demo.write_world) /\
  dict_mem "x" (_arraysets (w_cat Demo.write_world)) = true.
Proof. split; vm_compute; reflexivity. Qed.

(** Instance of C6 (amended) on [write_world]. *)
Lemma multi_add_unknown_names_witness :
  write_enabled (w_cat Demo.write_world) /\
  call_multi_add [("x", Demo.arr 11 [2%Z]); ("zz", Demo.arr 11 [2%Z])]
    Demo.write_world =
  (Err (KeyError (multi_add_keys_msg ["x"; "zz"])), Demo.write_world).
Proof.
  assert (Hw : write_enabled (w_cat Demo.write_world)) by (split; reflexivity).
  split; [exact Hw|].
  apply (multi_add_unknown_names Demo.write_world
           [("x", Demo.arr 11 [2%Z]); ("zz", Demo.arr 11 [2%Z])] Hw).
  exists "zz". split; [simpl; auto|reflexivity].
Defined.

(** Instance of C5: [multi_add({'x': a, 'x2': b})] on [write_world]. *)
Lemma multi_add_shared_key_witness :
  write_enabled (w_cat Demo.write_world) /\
  exists w',
    call_multi_add [("x", Demo.arr 11 [2%Z]); ("x2", Demo.arr 11 [3%Z])]
      Demo.write_world = (Ok "sample0", w') /\
    exists a, dict_get "x2" (_arraysets (w_cat w')) = Some a /\
      acc_get a "sample0" = Some (Demo.arr 11 [3%Z]).
Proof.
  assert (Hw : write_enabled (w_cat Demo.write_world)) by (split; reflexivity).
  assert (Hu : dict_keys_unique
                 [("x", Demo.arr 11 [2%Z]); ("x2", Demo.arr 11 [3%Z])] = true)
    by reflexivity.
  destruct (multi_add_shared_key Demo.write_world
              [("x", Demo.arr 11 [2%Z]); ("x2", Demo.arr 11 [3%Z])] Hw Hu)
    as [w' [Hc [Hall _]]].
  - intros n v Hin. simpl in Hin.
    destruct Hin as [Heq|[Heq|[]]]; injection Heq as <- <-;
      eexists; (split; [reflexivity|split; reflexivity]).
  - split; [exact Hw|]. exists w'. split; [exact Hc|].
    apply (Hall "x2"). simpl; auto.
Defined.

(** Instance of C9: the staging records of [write_world] and the commit
    records [commit_env]. *)
Lemma factories_build_every_accessor_witness :
  dict_keys_unique (schema_specs (w_dataenv Demo.write_world)) = true /\
  dict_keys_unique (schema_specs Demo.commit_env) = true /\
  exists c, Arraysets__from_staging_area "/repo" [] (w_dataenv Demo.write_world) []
    = Ok c /\ write_enabled c /\ map fst (_arraysets c) = ["x"; "x2"].
Proof.
  assert (H1 : dict_keys_unique (schema_specs (w_dataenv Demo.write_world)) = true)
    by (vm_compute; reflexivity).
  assert (H2 : dict_keys_unique (schema_specs Demo.commit_env) = true)
    by (vm_compute; reflexivity).
  split; [exact H1|split; [exact H2|]].
  destruct (factories_build_every_accessor "/repo" [] (w_dataenv Demo.write_world)
              [] Demo.commit_env H1 H2) as [Hs _].
  destruct Hs as [c [Hc [Hw [_ Hf]]]].
  - intros n s Hin. exists []. simpl in Hin.
    destruct Hin as [Heq|[Heq|[]]]; injection Heq as <- <-; reflexivity.
  - exists c. split; [exact Hc|split; [exact Hw|]].
    pose proof Hc as Hv. vm_compute in Hv. injection Hv as <-. reflexivity.
Defined.

(** Instance of C3: [init_arrayset('y', prototype=np.zeros((2,), np.float32))]
    then [init_arrayset('z', shape=(2,), dtype=np.float32)] on
    [write_world]: both give the same schema value. *)
Lemma init_arrayset_hash_write_once_witness :
  write_enabled (w_cat Demo.write_world) /\
  call_init_arrayset "y" ShapeNone None (ProtoArray (Demo.arr 11 [2%Z])) true
    false false BOptsNone Demo.write_world = (Ok Demo.acc_y, Demo.world_y) /\
  exists acc2 w2,
    call_init_arrayset "z" (ShapeTuple [2%Z]) (Some 11) ProtoNone true
      false false BOptsNone Demo.world_y = (Ok acc2, w2) /\
    w_hashenv w2 = w_hashenv Demo.world_y.
Proof.
  assert (Hw : write_enabled (w_cat Demo.write_world)) by (split; reflexivity).
  assert (H1 : call_init_arrayset "y" ShapeNone None
                 (ProtoArray (Demo.arr 11 [2%Z])) true false false BOptsNone
                 Demo.write_world = (Ok Demo.acc_y, Demo.world_y))
    by (vm_compute; reflexivity).
  destruct (init_arrayset_hash_write_once Demo.write_world "y" ShapeNone None
              (ProtoArray (Demo.arr 11 [2%Z])) true false false BOptsNone
              Demo.acc_y Demo.world_y Hw H1) as [proto [beopts [Hc1 Hrest]]].
  cbv zeta in Hrest. destruct Hrest as [_ [_ Himp]].
  assert (Hp : proto = Demo.arr 11 [2%Z] /\ beopts = Demo.mk_beopts_default).
  { vm_compute in Hc1. injection Hc1 as <- <-. split; reflexivity. }
  destruct Hp as [-> ->].
  destruct (Himp "z" (ShapeTuple [2%Z]) (Some 11) ProtoNone true false false BOptsNone
              (mk_ndarray [2%Z] 11 true [0%Z; 0%Z]) Demo.mk_beopts_default)
    as [acc2 [w2 [Hc [_ [_ [_ [_ [_ Hh]]]]]]]].
  - intros s. reflexivity.
  - discriminate.
  - vm_compute. reflexivity.
  - vm_compute. reflexivity.
  - intros env spec. exists []. reflexivity.
  - split; [exact Hw|split; [exact H1|]]. exists acc2, w2. split; [exact Hc|exact Hh].
Defined.

(** Instance of the fail-before-write lemma: a name with a space is
    refused on [write_world] with a [ValueError], and valid arguments are
    refused inside [with catalog:] with a [PermissionError], nothing
    written either time. *)
Lemma init_arrayset_fails_before_write_witness :
  write_enabled (w_cat Demo.write_world) /\
  call_init_arrayset "bad name" ShapeNone None (ProtoArray (Demo.arr 11 [2%Z]))
    true false false BOptsNone Demo.write_world =
  (Err (ValueError (init_arrayset_name_msg "bad name")),
   Demo.write_world) /\
  write_enabled (w_cat Demo.entered_world) /\
  call_init_arrayset "y" ShapeNone None (ProtoArray (Demo.arr 11 [2%Z]))
    true false false BOptsNone Demo.entered_world =
  (Err (PermissionError conman_msg), Demo.entered_world).
Proof.
  assert (Hw : write_enabled (w_cat Demo.write_world)) by (split; reflexivity).
  assert (He : write_enabled (w_cat Demo.entered_world)) by (split; reflexivity).
  split; [exact Hw|split; [|split; [exact He|]]].
  - destruct (init_arrayset_fails_before_write Demo.write_world "bad name" ShapeNone
             None (ProtoArray (Demo.arr 11 [2%Z])) true false false BOptsNone Hw)
      as [_ Hc].
    apply (Hc (ValueError (init_arrayset_name_msg "bad name"))).
    vm_compute. reflexivity.
  - destruct (init_arrayset_fails_before_write Demo.entered_world "y" ShapeNone
             None (ProtoArray (Demo.arr 11 [2%Z])) true false false BOptsNone He)
      as [Hc _].
    apply Hc. reflexivity.
Defined.

(** Instance of [init_arrayset_registers_name]: [init_arrayset('y', ...)]
    on [write_world]. *)
Lemma init_arrayset_registers_name_witness :
  write_enabled (w_cat Demo.write_world) /\
  Arraysets_keys (w_cat Demo.world_y) = ["x"; "x2"; "y"] /\
  Arraysets_get (w_cat Demo.world_y) "y" = Ok Demo.acc_y.
Proof.
  assert (Hw : write_enabled (w_cat Demo.write_world)) by (split; reflexivity).
  assert (H1 : call_init_arrayset "y" ShapeNone None
                 (ProtoArray (Demo.arr 11 [2%Z])) true false false BOptsNone
                 Demo.write_world = (Ok Demo.acc_y, Demo.world_y))
    by (vm_compute; reflexivity).
  destruct (init_arrayset_registers_name Demo.write_world "y" ShapeNone None
              (ProtoArray (Demo.arr 11 [2%Z])) true false false BOptsNone
              Demo.acc_y Demo.world_y Hw H1) as [_ [_ [Hk [_ [Hg _]]]]].
  split; [exact Hw|split; [|exact Hg]]. rewrite Hk. reflexivity.
Defined.

(** Instance of [init_arrayset_existing_name]: [init_arrayset('x', ...)]
    on [write_world]. *)
Lemma init_arrayset_existing_name_witness :
  write_enabled (w_cat Demo.write_world) /\
  call_init_arrayset "x" ShapeNone None (ProtoArray (Demo.arr 11 [2%Z])) true
    false false BOptsNone Demo.write_world =
  (Err (LookupError "Arrayset already exists with name: x."), Demo.write_world).
Proof.
  assert (Hw : write_enabled (w_cat Demo.write_world)) by (split; reflexivity).
  split; [exact Hw|].
  apply (init_arrayset_existing_name Demo.write_world "x" ShapeNone None
           (ProtoArray (Demo.arr 11 [2%Z])) true false false BOptsNone Hw);
    reflexivity.
Defined.

(** Instance of [delete_missing_name]: [delete('zz')] on [write_world]. *)
Lemma delete_missing_name_witness :
  write_enabled (w_cat Demo.write_world) /\
  call_delete "zz" Demo.write_world =
  (Err (KeyError "Cannot remove: zz. Key does not exist."), Demo.write_world).
Proof.
  assert (Hw : write_enabled (w_cat Demo.write_world)) by (split; reflexivity).
  split; [exact Hw|].
  apply (delete_missing_name Demo.write_world "zz" Hw); reflexivity.
Defined.

(** Instance of [delete_catalog_view]: [delete('x')] on [write_world]. *)
Lemma delete_catalog_view_witness :
  write_enabled (w_cat Demo.write_world) /\
  exists w', call_delete "x" Demo.write_world = (Ok "x", w') /\
    Arraysets_keys (w_cat w') = ["x2"] /\
    Arraysets___getitem__ (w_cat w') "x" =
      Err (KeyError "No arrayset exists with name: x").
Proof.
  assert (Hw : write_enabled (w_cat Demo.write_world)) by (split; reflexivity).
  destruct (delete_catalog_view Demo.write_world "x" Hw) as [w' [Hc [Hk [_ [_ Hg]]]]];
    try reflexivity.
  split; [exact Hw|]. exists w'. split; [exact Hc|split; [|exact Hg]].
  rewrite Hk. reflexivity.
Defined.

(** Instance of [init_then_delete_restores]: [init_arrayset('y', ...)] then
    [delete('y')] on [write_world]. *)
Lemma init_then_delete_restores_witness :
  write_enabled (w_cat Demo.write_world) /\
  exists w2, call_delete "y" Demo.world_y = (Ok "y", w2) /\
    w_cat w2 = w_cat Demo.write_world /\
    w_dataenv w2 = w_dataenv Demo.write_world.
Proof.
  assert (Hw : write_enabled (w_cat Demo.write_world)) by (split; reflexivity).
  assert (Hs : keys_sorted (w_dataenv Demo.write_world) = true)
    by (vm_compute; reflexivity).
  assert (Hfree : forall k v, In (k, v) (w_dataenv Demo.write_world) ->
            startswith k (arrayset_record_count_range_key "y") = false /\
            k <> arrayset_record_schema_db_key_from_raw_key "y").
  { intros k v Hin. simpl in Hin.
    repeat destruct Hin as [Hin|Hin];
      try (injection Hin as <- <-; split; [reflexivity|discriminate]).
    destruct Hin. }
  assert (H1 : call_init_arrayset "y" ShapeNone None
                 (ProtoArray (Demo.arr 11 [2%Z])) true false false BOptsNone
                 Demo.write_world = (Ok Demo.acc_y, Demo.world_y))
    by (vm_compute; reflexivity).
  destruct (init_then_delete_restores Demo.write_world "y" ShapeNone None
              (ProtoArray (Demo.arr 11 [2%Z])) true false false BOptsNone
              Demo.acc_y Demo.world_y Hw Hs Hfree H1) as [w2 [Hc [Hcat [Hd _]]]].
  split; [exact Hw|]. exists w2. split; [exact Hc|split; [exact Hcat|exact Hd]].
Defined.

(** A [multi_add] on [write_world] whose second array has the wrong dtype. *)
Lemma multi_add_restores_counters_witness :
  write_enabled (w_cat Demo.write_world) /\
  fst (call_multi_add [("x", Demo.arr 11 [2%Z]); ("x2", Demo.arr 7 [2%Z])]
         Demo.write_world) =
    Err (ValueError "sample does not match the arrayset schema") /\
  _is_conman_counter (w_cat (snd (call_multi_add
      [("x", Demo.arr 11 [2%Z]); ("x2", Demo.arr 7 [2%Z])] Demo.write_world))) = 0%Z.
Proof.
  assert (Hw : write_enabled (w_cat Demo.write_world)) by (split; reflexivity).
  assert (Hp : call_multi_add [("x", Demo.arr 11 [2%Z]); ("x2", Demo.arr 7 [2%Z])]
                 Demo.write_world =
               (fst (call_multi_add [("x", Demo.arr 11 [2%Z]); ("x2", Demo.arr 7 [2%Z])]
                       Demo.write_world),
                snd (call_multi_add [("x", Demo.arr 11 [2%Z]); ("x2", Demo.arr 7 [2%Z])]
                       Demo.write_world)))
    by (vm_compute; reflexivity).
  destruct (multi_add_restores_counters Demo.write_world _ _ _ Hw Hp) as [Hc _].
  split; [exact Hw|split; [vm_compute; reflexivity|]]. rewrite Hc. reflexivity.
Defined.

(** The same failing [multi_add]: [x] keeps the array added before the
    failure. *)
Lemma multi_add_keeps_earlier_adds_witness :
  write_enabled (w_cat Demo.write_world) /\
  fst (call_multi_add [("x", Demo.arr 11 [2%Z]); ("x2", Demo.arr 7 [2%Z])]
         Demo.write_world) =
    Err (ValueError "sample does not match the arrayset schema") /\
  exists a, Arraysets_get (w_cat (snd (call_multi_add
      [("x", Demo.arr 11 [2%Z]); ("x2", Demo.arr 7 [2%Z])] Demo.write_world))) "x"
      = Ok a /\ acc_get a "sample0" = Some (Demo.arr 11 [2%Z]).
Proof.
  assert (Hw : write_enabled (w_cat Demo.write_world)) by (split; reflexivity).
  assert (Hp : call_multi_add [("x", Demo.arr 11 [2%Z]); ("x2", Demo.arr 7 [2%Z])]
                 Demo.write_world =
               (fst (call_multi_add [("x", Demo.arr 11 [2%Z]); ("x2", Demo.arr 7 [2%Z])]
                       Demo.write_world),
                snd (call_multi_add [("x", Demo.arr 11 [2%Z]); ("x2", Demo.arr 7 [2%Z])]
                       Demo.write_world)))
    by (vm_compute; reflexivity).
  assert (Hrest : forall k, In k (map fst [("x2", Demo.arr 7 [2%Z])]) ->
            Arraysets___contains__ (w_cat Demo.write_world) k = true).
  { intros k [<-|[]]. reflexivity. }
  destruct (multi_add_keeps_earlier_adds Demo.write_world "x" (Demo.arr 11 [2%Z])
              [("x2", Demo.arr 7 [2%Z])] (Demo.acc "x") _ _ Hw
              ltac:(reflexivity) ltac:(reflexivity) ltac:(reflexivity)
              ltac:(simpl; intros [H|[]]; discriminate) Hrest Hp)
    as [_ Ha].
  split; [exact Hw|split; [vm_compute; reflexivity|exact Ha]].
Defined.

(** Instance of [factories_catalog_view] on the staging records of
    [write_world] and the commit records [commit_env]. *)
Lemma factories_catalog_view_witness :
  dict_keys_unique (schema_specs (w_dataenv Demo.write_world)) = true /\
  dict_keys_unique (schema_specs Demo.commit_env) = true /\
  exists c, Arraysets__from_commit "/repo" [] Demo.commit_env = Ok c /\
    Arraysets_iswriteable c = false /\ Arraysets_keys c = ["x"].
Proof.
  assert (H1 : dict_keys_unique (schema_specs (w_dataenv Demo.write_world)) = true)
    by (vm_compute; reflexivity).
  assert (H2 : dict_keys_unique (schema_specs Demo.commit_env) = true)
    by (vm_compute; reflexivity).
  split; [exact H1|split; [exact H2|]].
  destruct (factories_catalog_view "/repo" [] (w_dataenv Demo.write_world) []
              Demo.commit_env H1 H2) as [_ Hc].
  destruct Hc as [c [Hc [Hw [Hk _]]]].
  - intros n s Hin. exists []. simpl in Hin.
    destruct Hin as [Heq|[]]; injection Heq as <- <-; reflexivity.
  - exists c. split; [exact Hc|split; [exact Hw|]]. rewrite Hk. reflexivity.
Defined.

(** Instance of [enter_exit_roundtrip] on the catalog of [write_world] as
    [__init__] leaves it ([_stack] the list [[]]). *)
Lemma enter_exit_roundtrip_witness :
  (0 <= _is_conman_counter (w_cat Demo.write_world))%Z /\
  _any_is_conman
    (cc_cat (conman___enter__ (mk_conman_catalog (w_cat Demo.write_world) StackList)))
  = true /\
  conman___exit__ (conman___enter__ (mk_conman_catalog (w_cat Demo.write_world) StackList))
  = (Ok tt, mk_conman_catalog (w_cat Demo.write_world) (StackExit [])).
Proof.
  assert (H : (0 <= _is_conman_counter (w_cat Demo.write_world))%Z)
    by (simpl; lia).
  destruct (enter_exit_roundtrip (w_cat Demo.write_world) StackList H) as [Ha [_ He]].
  split; [exact H|split; [exact Ha|exact He]].
Defined.

(** Instance of [nested_with_leaves_accessors_entered] on [write_world]:
    after [with catalog:] nested in [with catalog:], [delete('x')] is
    refused. *)
Lemma nested_with_leaves_accessors_entered_witness :
  let c' := set_arraysets (w_cat Demo.write_world)
              (map (fun kv => (fst kv, acc___enter__ (snd kv)))
                 (_arraysets (w_cat Demo.write_world))) in
  _any_is_conman c' = true /\
  call_delete "x" (set_cat Demo.write_world c') =
    (Err (PermissionError conman_msg), set_cat Demo.write_world c').
Proof.
  intros c'.
  destruct (nested_with_leaves_accessors_entered (w_cat Demo.write_world) StackList)
    as [s3 [_ [_ [_ [_ Hk]]]]].
  destruct Hk as [Ha Hw].
  - exists "x", (Demo.acc "x"). split; [simpl; auto|simpl; lia].
  - split; [exact Ha|].
    destruct (Hw ltac:(split; reflexivity) Demo.write_world) as [_ Hd].
    apply Hd.
Defined.

(** Instance of [init_arrayset_rejects_bad_dims] for [y] on [write_world]
    with [dtype=np.float32]: [shape=(2, 0)] fails the shape check,
    [shape=(2, -1)] is refused by numpy as negative, and
    [shape=(2**40, 2**40, -1)] is refused by numpy as too big before the
    negative size is reached. *)
Lemma init_arrayset_rejects_bad_dims_witness :
  write_enabled (w_cat Demo.write_world) /\
  (exists msg, call_init_arrayset "y" (ShapeTuple [2%Z; 0%Z]) (Some 11) ProtoNone
     true false false BOptsNone Demo.write_world = (Err (ValueError msg), Demo.write_world)) /\
  call_init_arrayset "y" (ShapeTuple [2%Z; (-1)%Z]) (Some 11) ProtoNone
     true false false BOptsNone Demo.write_world =
  (Err (ValueError "negative dimensions are not allowed"), Demo.write_world) /\
  call_init_arrayset "y" (ShapeTuple [(2 ^ 40)%Z; (2 ^ 40)%Z; (-1)%Z]) (Some 11)
     ProtoNone true false false BOptsNone Demo.write_world =
  (Err (ValueError too_big_msg), Demo.write_world).
Proof.
  assert (Hw : write_enabled (w_cat Demo.write_world)) by (split; reflexivity).
  split; [exact Hw|split; [|split]].
  - destruct (init_arrayset_rejects_bad_dims Demo.write_world "y"
                (ShapeTuple [2%Z; 0%Z]) [2%Z; 0%Z] 11 true false false BOptsNone
                Hw ltac:(reflexivity) ltac:(reflexivity) ltac:(reflexivity)
                ltac:(reflexivity) (or_introl eq_refl)) as [_ Hk].
    destruct Hk as [Hz _].
    + simpl; lia.
    + intros d Hin. simpl in Hin. destruct Hin as [<-|[<-|[]]]; reflexivity.
    + vm_compute. split; discriminate.
    + destruct Hz as [msg [Hc _]].
      * intros d Hin. simpl in Hin. destruct Hin as [<-|[<-|[]]]; lia.
      * vm_compute. discriminate.
      * reflexivity.
      * left. simpl. auto.
      * exists msg. exact Hc.
  - destruct (init_arrayset_rejects_bad_dims Demo.write_world "y"
                (ShapeTuple [2%Z; (-1)%Z]) [2%Z; (-1)%Z] 11 true false false BOptsNone
                Hw ltac:(reflexivity) ltac:(reflexivity) ltac:(reflexivity)
                ltac:(reflexivity) (or_introl eq_refl)) as [_ Hk].
    destruct Hk as [_ [Hn _]].
    + simpl; lia.
    + intros d Hin. simpl in Hin. destruct Hin as [<-|[<-|[]]]; reflexivity.
    + vm_compute. split; discriminate.
    + apply (Hn [2%Z] (-1)%Z []); [reflexivity| |lia|vm_compute; discriminate].
      intros x [<-|[]]. lia.
  - destruct (init_arrayset_rejects_bad_dims Demo.write_world "y"
                (ShapeTuple [(2 ^ 40)%Z; (2 ^ 40)%Z; (-1)%Z]) [(2 ^ 40)%Z; (2 ^ 40)%Z; (-1)%Z]
                11 true false false BOptsNone
                Hw ltac:(reflexivity) ltac:(reflexivity) ltac:(reflexivity)
                ltac:(reflexivity) (or_introl eq_refl)) as [_ Hk].
    destruct Hk as [_ [_ Hb]].
    + simpl; lia.
    + intros d Hin. simpl in Hin. destruct Hin as [<-|[<-|[<-|[]]]]; reflexivity.
    + vm_compute. split; discriminate.
    + apply (Hb [(2 ^ 40)%Z; (2 ^ 40)%Z] [(-1)%Z]); [reflexivity| |reflexivity].
      intros x [<-|[<-|[]]]; lia.
Defined.
